(** * Fiona: the build script [setup.py] and the access-engine contracts

    The first part embeds [setup.py] (version discovery, [gdal-config]
    option parsing, data staging, extension selection, entry points) as
    a state-and-exception monad over a small model of the process
    environment.  The second part models the access-engine contracts
    (error translator, data source / layer / cursor, geometry codec),
    whose implementation lives in the Cython modules that [setup.py]
    only names. *)

From Stdlib Require Import ZArith Ascii String List Bool Lia.
From stdpp Require Import gmap strings list.

Set Warnings "-register-all".

Local Open Scope string_scope.

(** ** Python string primitives used by the script *)

Module PyStr.

Definition LF : ascii := "010"%char.
Definition CR : ascii := "013"%char.
Definition DQUOTE : ascii := "034"%char.
Definition SQUOTE : ascii := "039"%char.

(** [str.isspace] on the code points below 256. *)
Definition isspace (c : ascii) : bool :=
  let n := nat_of_ascii c in
  (Nat.leb 9 n && Nat.leb n 13) || (Nat.leb 28 n && Nat.leb n 32)
  || Nat.eqb n 133 || Nat.eqb n 160.

Definition is_empty (s : string) : bool :=
  match s with EmptyString => true | String _ _ => false end.

Fixpoint lstrip_by (p : ascii -> bool) (s : string) : string :=
  match s with
  | EmptyString => EmptyString
  | String c r => if p c then lstrip_by p r else s
  end.

Fixpoint rstrip_by (p : ascii -> bool) (s : string) : string :=
  match s with
  | EmptyString => EmptyString
  | String c r =>
      let r' := rstrip_by p r in
      if p c && is_empty r' then EmptyString else String c r'
  end.

Definition strip_by (p : ascii -> bool) (s : string) : string :=
  lstrip_by p (rstrip_by p s).

(** [s.strip()] *)
Definition strip (s : string) : string := strip_by isspace s.

Fixpoint char_in (c : ascii) (chars : string) : bool :=
  match chars with
  | EmptyString => false
  | String d r => Ascii.eqb c d || char_in c r
  end.

(** [s.strip(chars)] *)
Definition strip_chars (chars : string) (s : string) : string :=
  strip_by (fun c => char_in c chars) s.

(** [s.split(sep)] for a one-character separator. *)
Fixpoint split_sep (sep : ascii) (s : string) : list string :=
  match s with
  | EmptyString => [EmptyString]
  | String c r =>
      if Ascii.eqb c sep then EmptyString :: split_sep sep r
      else match split_sep sep r with
           | h :: t => String c h :: t
           | [] => [String c EmptyString]
           end
  end.

(** [s.split()]: the maximal runs of non-whitespace characters. *)
Fixpoint split_ws (s : string) : list string :=
  match s with
  | EmptyString => []
  | String c r =>
      if isspace c then split_ws r
      else match r with
           | EmptyString => [String c EmptyString]
           | String c' _ =>
               if isspace c' then String c EmptyString :: split_ws r
               else match split_ws r with
                    | h :: t => String c h :: t
                    | [] => [String c EmptyString]
                    end
           end
  end.

(** [s[n:]] *)
Fixpoint slice_from (n : nat) (s : string) : string :=
  match n, s with
  | O, _ => s
  | S n', String _ r => slice_from n' r
  | S _, EmptyString => EmptyString
  end.

(** [s.startswith(p)] *)
Definition startswith (p s : string) : bool := String.prefix p s.

(** [s.find(sub)]: lowest index of [sub] in [s], or -1. *)
Definition find (sub s : string) : Z :=
  match String.index 0 sub s with
  | Some i => Z.of_nat i
  | None => (-1)%Z
  end.

(** [f.readline()] on the unread text of a file opened in text mode
    (universal newlines): the line read, its terminator translated to
    a line feed, and the text left. At end of file the line is empty. *)
Fixpoint readline (s : string) : string * string :=
  match s with
  | EmptyString => (EmptyString, EmptyString)
  | String c r =>
      if Ascii.eqb c LF then (String LF EmptyString, r)
      else if Ascii.eqb c CR then
        (String LF EmptyString,
         match r with
         | String c' r' => if Ascii.eqb c' LF then r' else r
         | EmptyString => r
         end)
      else let (l, rest) := readline r in (String c l, rest)
  end.

(** [for line in f]: every line of the text, terminators kept. *)
Fixpoint lines (s : string) : list string :=
  match s with
  | EmptyString => []
  | String c r =>
      if Ascii.eqb c LF then String LF EmptyString :: lines r
      else if Ascii.eqb c CR then
        String LF EmptyString ::
        match r with
        | String c' r' => if Ascii.eqb c' LF then lines r' else lines r
        | EmptyString => []
        end
      else match lines r with
           | h :: t => String c h :: t
           | [] => [String c EmptyString]
           end
  end.

(** [f.read()] on a file opened in text mode (universal newlines):
    a carriage return, alone or followed by a line feed, is read as
    one line feed. *)
Fixpoint universal_newlines (s : string) : string :=
  match s with
  | EmptyString => EmptyString
  | String c r =>
      if Ascii.eqb c CR then
        String LF
          match r with
          | String c' r' =>
              if Ascii.eqb c' LF then universal_newlines r'
              else universal_newlines r
          | EmptyString => EmptyString
          end
      else String c (universal_newlines r)
  end.

(** Truthiness of [os.environ.get(name)]: set and not empty. *)
Definition truthy (o : option string) : bool :=
  match o with
  | Some s => negb (is_empty s)
  | None => false
  end.

End PyStr.

Import PyStr.


(** ** The build script *)

Module SetupPy.

(** *** Exceptions, outcomes and the script monad *)

(** The exception classes the script meets. All derive from
    [Exception]; [OtherException] stands for any further subclass an
    external call may raise. Leaving through [sys.exit] is the
    separate outcome [Exit]; an interrupt from the keyboard, which
    reaches the script from outside and derives from [BaseException]
    only, is not modelled. *)
Inductive exn_class : Type :=
| OSError
| IndexError
| NameError
| OtherException (name : string).

(** An exception instance; [exn_str] is [str(e)]. *)
Record exn : Type := Exn { exn_cls : exn_class; exn_str : string }.

Definition is_OSError (e : exn) : bool :=
  match exn_cls e with OSError => true | _ => false end.

(** [isinstance(e, Exception)] *)
Definition is_Exception (e : exn) : bool := true.

(** A directory tree, kept as the files below it. *)
Definition tree : Type := list (string * string).

(** The four option lists of lines 51-54; the loops mutate them in
    place. *)
Record Options : Type := {
  include_dirs : list string;
  library_dirs : list string;
  libraries : list string;
  extra_link_args : list string
}.

Record Extension : Type := {
  ext_name : string;
  ext_sources : list string;
  ext_options : Options
}.

(** Logging levels of the [logging] module. *)
Definition DEBUG : nat := 10.
Definition INFO : nat := 20.
Definition WARNING : nat := 30.
Definition CRITICAL : nat := 50.

(** What the script reads and never changes. [call prog arg] is
    [subprocess.call([prog, arg], stdout=...)]: the exception it
    raises, or the text the program writes to standard output; what
    else the program may do is left out. [cythonize] is [None] when
    [Cython.Build] cannot be imported; when it can, it is taken as a
    function of the extension list: the [.c] files it writes and the
    exceptions it may raise are left out. *)
Record World : Type := {
  environ : gmap string string;
  warnoptions : list string;
  version_info : nat * nat;
  call : string -> string -> exn + string;
  cythonize : option (list Extension -> list Extension)
}.

(** What the script changes: regular files, directory trees, the root
    logger (level and the records it let through) and the option
    lists. A file holds its text as Python 3 decodes it; a file that
    does not decode, or that may not be opened, is left out. Paths
    are the strings the script passes on, compared as written: what
    lies inside a directory is kept in its tree, not under a path of
    its own, and [apart], below, tells when two paths neither name
    one place nor lie one inside the other. *)
Record State : Type := {
  files : gmap string string;
  dirs : gmap string tree;
  log_level : nat;
  log_records : list (nat * string);
  options : Options
}.

Inductive Result (A : Type) : Type :=
| Ok (a : A) (s : State)
| Raise (e : exn) (s : State)
| Exit (code : Z) (s : State).
Arguments Ok {A} a s.
Arguments Raise {A} e s.
Arguments Exit {A} code s.

Definition M (A : Type) : Type := State -> Result A.

Definition ret {A} (a : A) : M A := fun s => Ok a s.

Definition bind {A B} (m : M A) (k : A -> M B) : M B :=
  fun s =>
    match m s with
    | Ok a s' => k a s'
    | Raise e s' => Raise e s'
    | Exit c s' => Exit c s'
    end.

Definition raise {A} (e : exn) : M A := fun s => Raise e s.

(** [sys.exit(code)] *)
Definition sys_exit {A} (code : Z) : M A := fun s => Exit code s.

Definition get : M State := fun s => Ok s s.
Definition modify (f : State -> State) : M unit := fun s => Ok tt (f s).

(** [try: body except C as e: handler(e)], [catches] being the test
    [isinstance(e, C)]. *)
Definition try_except {A} (body : M A) (catches : exn -> bool)
    (handler : exn -> M A) : M A :=
  fun s =>
    match body s with
    | Raise e s' => if catches e then handler e s' else Raise e s'
    | r => r
    end.

(** [for x in l: body(x)] *)
Fixpoint for_each {A} (l : list A) (body : A -> M unit) : M unit :=
  match l with
  | [] => ret tt
  | x :: rest => bind (body x) (fun _ => for_each rest body)
  end.

Definition when (b : bool) (m : M unit) : M unit :=
  if b then m else ret tt.

Notation "x <-- m ;; k" := (bind m (fun x => k))
  (at level 100, m at next level, right associativity).
Notation "m ;;; k" := (bind m (fun _ => k))
  (at level 100, right associativity).

(** *** State updates *)

Definition set_files (f : gmap string string) (s : State) : State :=
  {| files := f; dirs := dirs s; log_level := log_level s;
     log_records := log_records s; options := options s |}.

Definition set_dirs (d : gmap string tree) (s : State) : State :=
  {| files := files s; dirs := d; log_level := log_level s;
     log_records := log_records s; options := options s |}.

Definition set_log_level (l : nat) (s : State) : State :=
  {| files := files s; dirs := dirs s; log_level := l;
     log_records := log_records s; options := options s |}.

Definition add_record (r : nat * string) (s : State) : State :=
  {| files := files s; dirs := dirs s; log_level := log_level s;
     log_records := log_records s ++ [r]; options := options s |}.

Definition set_options (o : Options) (s : State) : State :=
  {| files := files s; dirs := dirs s; log_level := log_level s;
     log_records := log_records s; options := o |}.

Definition empty_options : Options :=
  {| include_dirs := []; library_dirs := []; libraries := [];
     extra_link_args := [] |}.

(** [include_dirs.extend(l)] *)
Definition extend_include_dirs (l : list string) (o : Options) : Options :=
  {| include_dirs := include_dirs o ++ l; library_dirs := library_dirs o;
     libraries := libraries o; extra_link_args := extra_link_args o |}.

(** [library_dirs.extend(l)] *)
Definition extend_library_dirs (l : list string) (o : Options) : Options :=
  {| include_dirs := include_dirs o; library_dirs := library_dirs o ++ l;
     libraries := libraries o; extra_link_args := extra_link_args o |}.

(** [libraries.append(x)] *)
Definition append_libraries (x : string) (o : Options) : Options :=
  {| include_dirs := include_dirs o; library_dirs := library_dirs o;
     libraries := libraries o ++ [x]; extra_link_args := extra_link_args o |}.

(** [extra_link_args.append(x)] *)
Definition append_extra_link_args (x : string) (o : Options) : Options :=
  {| include_dirs := include_dirs o; library_dirs := library_dirs o;
     libraries := libraries o; extra_link_args := extra_link_args o ++ [x] |}.

Definition upd_options (f : Options -> Options) : M unit :=
  modify (fun s => set_options (f (options s)) s).

(** *** Files, directories, logging *)

(** [os.path.exists(path)], for a path that is not inside a directory
    the state holds. *)
Definition path_exists (s : State) (path : string) : bool :=
  match files s !! path, dirs s !! path with
  | None, None => false
  | _, _ => true
  end.

(** Opening a text file for reading and taking its text as it is
    stored; a missing file raises. The line ends are seen to by
    [lines], [readline] and [read_text]. *)
Definition read_file (path : string) : M string :=
  fun s =>
    match files s !! path with
    | Some text => Ok text s
    | None => Raise (Exn OSError ("No such file or directory: " ++ path)) s
    end.

(** [open(path, 'w')] creates or truncates the file; opening for
    writing is taken to succeed. *)
Definition open_w (path : string) : M unit :=
  modify (fun s => set_files (<[path := ""]> (files s)) s).

(** Writing at the end of an open file. *)
Definition append_file (path text : string) : M unit :=
  modify (fun s =>
    set_files (<[path := default "" (files s !! path) ++ text]> (files s)) s).

(** [log.log(level, msg)]: the root logger lets the record through
    when its level is at most [level]. *)
Definition log_call (level : nat) (msg : string) : M unit :=
  modify (fun s =>
    if Nat.leb (log_level s) level then add_record (level, msg) s else s).

(** [shutil.rmtree(path)]: the directory goes with its tree. *)
Definition rmtree (path : string) : M unit :=
  fun s =>
    match dirs s !! path with
    | Some _ => Ok tt (set_dirs (delete path (dirs s)) s)
    | None => Raise (Exn OSError ("No such file or directory: " ++ path)) s
    end.

(** [shutil.copytree(src, dst)]: [src] is listed first, then [dst]
    is created and must not exist. The copy succeeds as it does for
    paths that are apart. *)
Definition copytree (src dst : string) : M unit :=
  fun s =>
    match dirs s !! src with
    | None => Raise (Exn OSError ("No such file or directory: " ++ src)) s
    | Some t =>
        if path_exists s dst
        then Raise (Exn OSError ("File exists: " ++ dst)) s
        else Ok tt (set_dirs (<[dst := t]> (dirs s)) s)
    end.

(** [subprocess.call([prog, arg], stdout=f)] with [f] open on [out]. *)
Definition subprocess_call (w : World) (prog arg out : string) : M unit :=
  match call w prog arg with
  | inl e => raise e
  | inr text => append_file out text
  end.

(** Evaluating a variable that may not have been assigned. *)
Definition load_name (name : string) (v : option string) : M string :=
  match v with
  | Some x => ret x
  | None => raise (Exn NameError ("name '" ++ name ++ "' is not defined"))
  end.

(** [f.read()] on a file opened for reading in text mode (lines
    40-47). *)
Definition read_text (path : string) : M string :=
  text <-- read_file path ;;
  ret (universal_newlines text).

(** *** Lines 15-20: logging *)

Definition configure_logging (w : World) : M unit :=
  when (bool_decide ("all" ∈ warnoptions w)) (modify (set_log_level DEBUG)).

(** *** Lines 22-38: the version *)

(** Lines 26-28, on one line of the file. *)
Definition version_of_line (line : string) : M string :=
  match split_sep "="%char line with
  | _ :: v :: _ =>
      ret (strip_chars "'" (strip_chars (String DQUOTE "") (strip v)))
  | _ => raise (Exn IndexError "list index out of range")
  end.

(** Lines 24-29. *)
Fixpoint version_loop (ls : list string) (version : option string)
    : M (option string) :=
  match ls with
  | [] => ret version
  | line :: rest =>
      if (0 <=? find "__version__" line)%Z then
        v <-- version_of_line line ;;
        version_loop rest (Some v)
      else version_loop rest version
  end.

Definition parse_version : M (option string) :=
  text <-- read_file "fiona/__init__.py" ;;
  version_loop (lines text) None.

(** Lines 33-35. *)
Definition open_kwds (w : World) : list (string * string) :=
  if Nat.leb 3 (fst (version_info w)) then [("encoding", "utf-8")] else [].

(** Lines 37-38. *)
Definition write_version (version : option string) : M unit :=
  open_w "VERSION.txt" ;;;
  v <-- load_name "version" version ;;
  append_file "VERSION.txt" v.

(** *** Lines 56-88: options from gdal-config *)

(** Lines 66-68. *)
Definition parse_cflags (cflags : string) : M unit :=
  for_each (split_ws cflags) (fun item =>
    when (startswith "-I" item)
      (upd_options (extend_include_dirs (split_sep ":"%char (slice_from 2 item))))).

(** Lines 69-76. *)
Definition parse_libs (libs : string) : M unit :=
  for_each (split_ws libs) (fun item =>
    if startswith "-L" item then
      upd_options (extend_library_dirs (split_sep ":"%char (slice_from 2 item)))
    else if startswith "-l" item then
      upd_options (append_libraries (slice_from 2 item))
    else
      upd_options (append_extra_link_args item)).

(** Lines 81-85 and 94-98: drop the staged copy, ignoring [OSError],
    then copy the tree. *)
Definition stage_data (src dst : string) : M unit :=
  try_except (rmtree dst) is_OSError (fun _ => ret tt) ;;;
  copytree src dst.

(** Line 57. *)
Definition gdal_config (w : World) : string :=
  default "gdal-config" (environ w !! "GDAL_CONFIG").

(** Lines 62-65: the three lines read back. *)
Definition read_config (text : string) : string * string * string :=
  let (l1, r1) := readline text in
  let (l2, r2) := readline r1 in
  let (l3, _) := readline r2 in
  (strip l1, strip l2, strip l3).

(** Lines 57-85, the body of the [try]. *)
Definition gdal_body (w : World) : M unit :=
  open_w "gdal-config.txt" ;;;
  subprocess_call w (gdal_config w) "--cflags" "gdal-config.txt" ;;;
  subprocess_call w (gdal_config w) "--libs" "gdal-config.txt" ;;;
  subprocess_call w (gdal_config w) "--datadir" "gdal-config.txt" ;;;
  text <-- read_file "gdal-config.txt" ;;
  let '(cflags, libs, datadir) := read_config text in
  parse_cflags cflags ;;;
  parse_libs libs ;;;
  when (truthy (environ w !! "PACKAGE_DATA"))
    (stage_data datadir "fiona/gdal_data").

(** Lines 56-88. *)
Definition gdal_block (w : World) : M unit :=
  try_except (gdal_body w) is_Exception (fun e =>
    log_call WARNING ("Failed to get options via gdal-config: " ++ exn_str e)).

(** *** Lines 90-98: PROJ.4 data *)

(** Line 92. *)
Definition projdatadir (w : World) : string :=
  default "/usr/local/share/proj" (environ w !! "PROJ_LIB").

Definition proj_block (w : World) : M unit :=
  when (truthy (environ w !! "PACKAGE_DATA"))
    (s <-- get ;;
     when (path_exists s (projdatadir w))
       (stage_data (projdatadir w) "fiona/proj_data")).

(** *** Lines 100-127: extension modules *)

Definition mk_Extension (name : string) (sources : list string)
    (o : Options) : Extension :=
  {| ext_name := name; ext_sources := sources; ext_options := o |}.

(** Lines 115-119, the argument of [cythonize]. *)
Definition pyx_extensions (o : Options) : list Extension :=
  [ mk_Extension "fiona._geometry" ["fiona/_geometry.pyx"] o;
    mk_Extension "fiona._transform" ["fiona/_transform.pyx"] o;
    mk_Extension "fiona._drivers" ["fiona/_drivers.pyx"] o;
    mk_Extension "fiona._err" ["fiona/_err.pyx"] o;
    mk_Extension "fiona.ogrext" ["fiona/ogrext.pyx"] o ].

(** Lines 122-127. *)
Definition c_extensions (o : Options) : list Extension :=
  [ mk_Extension "fiona._transform" ["fiona/_transform.cpp"] o;
    mk_Extension "fiona._geometry" ["fiona/_geometry.c"] o;
    mk_Extension "fiona._drivers" ["fiona/_drivers.c"] o;
    mk_Extension "fiona._err" ["fiona/_err.c"] o;
    mk_Extension "fiona.ogrext" ["fiona/ogrext.c"] o ].

Definition cython_missing : string :=
  "Cython.Build.cythonize not found. Cython is required to build from a repo.".

(** Lines 100-127. *)
Definition select_ext_modules (w : World) : M (list Extension) :=
  s <-- get ;;
  let ext_options := options s in
  if path_exists s "MANIFEST.in" then
    log_call INFO "MANIFEST.in found, presume a repo, cythonizing..." ;;;
    match cythonize w with
    | None => log_call CRITICAL cython_missing ;;; sys_exit 1
    | Some cy => ret (cy (pyx_extensions ext_options))
    end
  else ret (c_extensions ext_options).

(** *** Lines 129-184: requirements and the call of [setup] *)

(** Lines 129-132; [sys.version_info < (2, 7)]. *)
Definition requirements (w : World) : list string :=
  let (major, minor) := version_info w in
  ["cligj"; "six"]
  ++ (if Nat.ltb major 2 || (Nat.eqb major 2 && Nat.ltb minor 7)
      then ["argparse"; "ordereddict"] else []).

(** Lines 151-165, the text as written. *)
Definition entry_points : string := "
        [console_scripts]
        fio=fiona.fio.main:cli

        [fiona.fio_commands]
        bounds=fiona.fio.fio:bounds
        cat=fiona.fio.fio:cat
        collect=fiona.fio.fio:collect
        distrib=fiona.fio.fio:distrib
        dump=fiona.fio.fio:dump
        env=fiona.fio.fio:env
        info=fiona.fio.fio:info
        insp=fiona.fio.fio:insp
        load=fiona.fio.fio:load
        ".

Definition classifiers : list string :=
  [ "Development Status :: 5 - Production/Stable";
    "Intended Audience :: Developers";
    "Intended Audience :: Science/Research";
    "License :: OSI Approved :: BSD License";
    "Operating System :: OS Independent";
    "Programming Language :: Python :: 2";
    "Programming Language :: Python :: 3";
    "Topic :: Scientific/Engineering :: GIS" ].

(** The keyword arguments of [setup]. *)
Record SetupArgs : Type := {
  sa_metadata_version : string;
  sa_name : string;
  sa_version : string;
  sa_requires_python : string;
  sa_requires_external : string;
  sa_description : string;
  sa_license : string;
  sa_keywords : string;
  sa_author : string;
  sa_author_email : string;
  sa_maintainer : string;
  sa_maintainer_email : string;
  sa_url : string;
  sa_long_description : string;
  sa_package_dir : list (string * string);
  sa_packages : list string;
  sa_entry_points : string;
  sa_install_requires : list string;
  sa_tests_require : list string;
  sa_test_suite : string;
  sa_ext_modules : list Extension;
  sa_classifiers : list string;
  sa_package_data : option (list (string * list string))
}.

(** Lines 134-182. *)
Definition setup_args (w : World) (version readme changes credits : string)
    (ext_modules : list Extension) : SetupArgs :=
  {| sa_metadata_version := "1.2";
     sa_name := "Fiona";
     sa_version := version;
     sa_requires_python := ">=2.6";
     sa_requires_external := "GDAL (>=1.8)";
     sa_description := "Fiona reads and writes spatial data files";
     sa_license := "BSD";
     sa_keywords := "gis vector feature data";
     sa_author := "Sean Gillies";
     sa_author_email := "sean.gillies@gmail.com";
     sa_maintainer := "Sean Gillies";
     sa_maintainer_email := "sean.gillies@gmail.com";
     sa_url := "http://github.com/Toblerity/Fiona";
     sa_long_description :=
       readme ++ String LF "" ++ changes ++ String LF "" ++ credits;
     sa_package_dir := [("", ".")];
     sa_packages := ["fiona"; "fiona.fio"];
     sa_entry_points := entry_points;
     sa_install_requires := requirements w;
     sa_tests_require := ["nose"];
     sa_test_suite := "nose.collector";
     sa_ext_modules := ext_modules;
     sa_classifiers := classifiers;
     sa_package_data :=
       if truthy (environ w !! "PACKAGE_DATA")
       then Some [("fiona", ["gdal_data/*"; "proj_data/*"])]
       else None |}.

(** Lines 22-38: the version is parsed and written out. *)
Definition discover_version : M (option string) :=
  version <-- parse_version ;;
  write_version version ;;;
  ret version.

(** Lines 40-182. *)
Definition finish (w : World) (version : option string) : M SetupArgs :=
  readme <-- read_text "README.rst" ;;
  credits <-- read_text "CREDITS.txt" ;;
  changes <-- read_text "CHANGES.txt" ;;
  modify (set_options empty_options) ;;;
  gdal_block w ;;;
  proj_block w ;;;
  ext_modules <-- select_ext_modules w ;;
  v <-- load_name "version" version ;;
  ret (setup_args w v readme changes credits ext_modules).

(** The whole script, up to the call of [setup] on line 184. *)
Definition script (w : World) : M SetupArgs :=
  configure_logging w ;;;
  version <-- discover_version ;;
  finish w version.

(** The state the interpreter starts the script in: the root logger
    at [WARNING], nothing logged. *)
Definition initial (f : gmap string string) (d : gmap string tree) : State :=
  {| files := f; dirs := d; log_level := WARNING; log_records := [];
     options := empty_options |}.

(** How a run ends: [setup] is called, an exception reaches the top
    level, or [sys.exit] leaves. *)
Inductive Outcome : Type :=
| SetupCalled (args : SetupArgs) (s : State)
| Traceback (e : exn) (s : State)
| Exited (code : Z) (s : State).

Definition run (w : World) (f : gmap string string) (d : gmap string tree)
    : Outcome :=
  match script w (initial f d) with
  | Ok args s => SetupCalled args s
  | Raise e s => Traceback e s
  | Exit code s => Exited code s
  end.

(** *** The entry-point text, as setuptools reads it *)

Record EntryPoint : Type := {
  ep_name : string;
  ep_module : string;
  ep_attr : string
}.

(** [s.partition(sep)] for a one-character separator, [None] when
    [sep] does not occur. *)
Fixpoint partition (sep : ascii) (s : string) : option (string * string) :=
  match s with
  | EmptyString => None
  | String c r =>
      if Ascii.eqb c sep then Some (EmptyString, r)
      else match partition sep r with
           | Some (a, b) => Some (String c a, b)
           | None => None
           end
  end.

(** One line [name = module:attr]; the attribute may be left out
    (extras are not modelled). *)
Definition parse_entry (line : string) : option EntryPoint :=
  match partition "="%char line with
  | Some (n, v) =>
      match partition ":"%char (strip v) with
      | Some (m, a) =>
          Some {| ep_name := strip n; ep_module := strip m; ep_attr := strip a |}
      | None =>
          Some {| ep_name := strip n; ep_module := strip v; ep_attr := "" |}
      end
  | None => None
  end.

(** [s[:-1]] *)
Fixpoint drop_last (s : string) : string :=
  match s with
  | EmptyString => EmptyString
  | String c EmptyString => EmptyString
  | String c r => String c (drop_last r)
  end.

Fixpoint ends_with_char (c : ascii) (s : string) : bool :=
  match s with
  | EmptyString => false
  | String d EmptyString => Ascii.eqb d c
  | String _ r => ends_with_char c r
  end.

(** [[name]] heads a group. *)
Definition section_name (line : string) : option string :=
  if startswith "[" line && ends_with_char "]"%char line
  then Some (strip (drop_last (slice_from 1 line)))
  else None.

(** The groups of an entry-point text, in order: blank lines and
    [#] comments are skipped, a line outside any group or one that
    does not parse makes the text invalid. *)
Fixpoint parse_groups (ls : list string)
    (cur : option (string * list EntryPoint))
    : option (list (string * list EntryPoint)) :=
  let close := match cur with Some g => [g] | None => [] end in
  match ls with
  | [] => Some close
  | l :: rest =>
      let line := strip l in
      if is_empty line || startswith "#" line then parse_groups rest cur
      else match section_name line with
           | Some n =>
               match parse_groups rest (Some (n, [])) with
               | Some gs => Some (close ++ gs)%list
               | None => None
               end
           | None =>
               match cur, parse_entry line with
               | Some (n, es), Some e => parse_groups rest (Some (n, (es ++ [e])%list))
               | _, _ => None
               end
           end
  end.

Definition parse_entry_points (text : string)
    : option (list (string * list EntryPoint)) :=
  parse_groups (lines text) None.

(** *** The claims in the words of the specification, and sample machines *)

(** The step of the loop of lines 66-68. *)
Definition cflags_step (item : string) (o : Options) : Options :=
  if startswith "-I" item
  then extend_include_dirs (split_sep ":"%char (slice_from 2 item)) o
  else o.

(** The step of the loop of lines 69-76. *)
Definition libs_step (item : string) (o : Options) : Options :=
  if startswith "-L" item then
    extend_library_dirs (split_sep ":"%char (slice_from 2 item)) o
  else if startswith "-l" item then append_libraries (slice_from 2 item) o
  else append_extra_link_args item o.

(** The remainders of the tokens that start with [prefix], each split
    on the colon. *)
Definition dirs_of (prefix : string) (tokens : list string) : list string :=
  flat_map (fun t => split_sep ":"%char (slice_from 2 t))
    (List.filter (startswith prefix) tokens).

Definition spec_include_dirs (cflags : string) : list string :=
  dirs_of "-I" (split_ws cflags).

Definition spec_library_dirs (libs : string) : list string :=
  dirs_of "-L" (split_ws libs).

Definition spec_libraries (libs : string) : list string :=
  map (slice_from 2) (List.filter (startswith "-l") (split_ws libs)).

Definition spec_extra_link_args (libs : string) : list string :=
  List.filter (fun t => negb (startswith "-L" t) && negb (startswith "-l" t))
    (split_ws libs).

(** The option lists after both loops, the lists before being [o]. *)
Definition gathered (o : Options) (cflags libs : string) : Options :=
  {| include_dirs := include_dirs o ++ spec_include_dirs cflags;
     library_dirs := library_dirs o ++ spec_library_dirs libs;
     libraries := libraries o ++ spec_libraries libs;
     extra_link_args := extra_link_args o ++ spec_extra_link_args libs |}.

Definition mentions_version (line : string) : bool :=
  (0 <=? find "__version__" line)%Z.

(** The lines of [fiona/__init__.py] that contain [__version__]. *)
Definition version_lines (text : string) : list string :=
  List.filter mentions_version (lines text).

Definition has_eq (line : string) : bool :=
  match partition "="%char line with Some _ => true | None => false end.

(** The text after the first [=] of a line (empty when there is none). *)
Definition after_first_eq (line : string) : string :=
  match partition "="%char line with Some (_, b) => b | None => "" end.

(** The text up to the first [=], all of it when there is none. *)
Definition upto_eq (s : string) : string :=
  match partition "="%char s with Some (a, _) => a | None => s end.

(** Whitespace, then double quotes, then single quotes stripped. *)
Definition unquote (s : string) : string :=
  strip_chars "'" (strip_chars (String DQUOTE "") (strip s)).

(** The version as the claim words it: from all the text after the
    first [=]. *)
Definition claimed_version (line : string) : string :=
  unquote (after_first_eq line).

(** The version from the text between the first [=] and the next. *)
Definition version_between (line : string) : string :=
  unquote (upto_eq (after_first_eq line)).

Definition name_error : exn := Exn NameError "name 'version' is not defined".
Definition index_error : exn := Exn IndexError "list index out of range".

(** The claim as worded: whenever [setup] is reached, its version is
    the unquoted text after the first [=] of the last line that
    contains [__version__]. *)
Definition version_is_text_after_first_eq : Prop :=
  forall (w : World) (f : gmap string string) (d : gmap string tree)
         (text line : string) (args : SetupArgs) (s : State),
    f !! "fiona/__init__.py" = Some text ->
    last (version_lines text) = Some line ->
    run w f d = SetupCalled args s ->
    sa_version args = claimed_version line.

(** A machine without [gdal-config], building from an sdist. *)
Definition no_gdal_config (prog arg : string) : exn + string :=
  inl (Exn OSError "No such file or directory").

Definition sdist_world : World :=
  {| environ := ∅; warnoptions := []; version_info := (3, 8)%nat;
     call := no_gdal_config; cythonize := None |}.

Definition sdist_files (init : string) : gmap string string :=
  <["fiona/__init__.py" := init]>
    (<["README.rst" := "Fiona"]>
       (<["CREDITS.txt" := "Sean Gillies"]> (<["CHANGES.txt" := "1.0"]> ∅))).

Definition version_line_two_eq : string :=
  "__version__ = '1.4.8'  # was version='1.4.7'" ++ String LF "".

Definition init_two_eq : string :=
  "__all__ = ['open']" ++ String LF "" ++ version_line_two_eq.

Definition init_plain : string :=
  "__all__ = ['open']" ++ String LF "" ++ "__version__ = "
  ++ String DQUOTE "1.4.8" ++ String DQUOTE (String LF "").

Definition state_of {A} (r : Result A) : State :=
  match r with Ok _ s | Raise _ s | Exit _ s => s end.

(** [m] leaves the file at [path] as it finds it, however it ends. *)
Definition keeps (path : string) {A} (m : M A) : Prop :=
  forall s, files (state_of (m s)) !! path = files s !! path.

(** Two states that differ at most in their directories. *)
Definition same_but_dirs (s s' : State) : Prop :=
  files s' = files s /\ log_level s' = log_level s
  /\ log_records s' = log_records s /\ options s' = options s.

(** What is left of the body of the [try] once the three calls have
    written their output. *)
Definition after_calls (w : World) (text : string) : M unit :=
  let '(cflags, libs, datadir) := read_config text in
  parse_cflags cflags ;;;
  parse_libs libs ;;;
  when (truthy (environ w !! "PACKAGE_DATA"))
    (stage_data datadir "fiona/gdal_data").

(** The warning of line 88. *)
Definition gdal_warning (e : exn) : nat * string :=
  (WARNING, "Failed to get options via gdal-config: " ++ exn_str e).

(** A machine where [gdal-config] answers, with PACKAGE_DATA set and a
    data directory that is not there. *)
Definition answering_gdal_config (prog arg : string) : exn + string :=
  if String.eqb arg "--cflags" then inr ("-I/usr/include/gdal" ++ String LF "")
  else if String.eqb arg "--libs" then inr ("-L/usr/lib -lgdal" ++ String LF "")
  else inr ("/usr/share/gdal" ++ String LF "").

Definition wheel_world : World :=
  {| environ := {["PACKAGE_DATA" := "1"]}; warnoptions := [];
     version_info := (3, 8)%nat; call := answering_gdal_config;
     cythonize := None |}.

(** A checkout (with [MANIFEST.in]) on a machine without Cython. *)
Definition checkout_files : gmap string string :=
  <["MANIFEST.in" := "include *.txt"]> (sdist_files init_plain).

(** *** Invariants of the script, and how a run ends *)

(** [m] keeps [P]: the state it leaves, however it ends, satisfies
    [P] when the state it starts in does. *)
Definition maintains (P : State -> Prop) {A} (m : M A) : Prop :=
  forall s, P s -> P (state_of (m s)).

(** The state a run leaves behind. *)
Definition final_state (o : Outcome) : State :=
  match o with SetupCalled _ s | Traceback _ s | Exited _ s => s end.

(** The files the script writes (lines 37 and 58). *)
Definition written_file (p : string) : Prop :=
  p = "VERSION.txt" \/ p = "gdal-config.txt".

(** The directories the script stages (lines 82-85 and 95-98). *)
Definition staged_dir (p : string) : Prop :=
  p = "fiona/gdal_data" \/ p = "fiona/proj_data".

(** The level the root logger works at (lines 15-20). *)
Definition threshold (w : World) : nat :=
  if bool_decide ("all" ∈ warnoptions w) then DEBUG else WARNING.

(** How a computation ends, the state left aside. *)
Inductive Ending : Type :=
| EndsInSetup
| EndsWith (c : exn_class)
| EndsExit (code : Z).

Definition ending_of {A} (r : Result A) : Ending :=
  match r with
  | Ok _ _ => EndsInSetup
  | Raise e _ => EndsWith (exn_cls e)
  | Exit c _ => EndsExit c
  end.

Definition ending (o : Outcome) : Ending :=
  match o with
  | SetupCalled _ _ => EndsInSetup
  | Traceback e _ => EndsWith (exn_cls e)
  | Exited c _ => EndsExit c
  end.

Definition is_set {A} (o : option A) : bool :=
  match o with Some _ => true | None => false end.

(** How the script ends when PACKAGE_DATA is not set, read off the
    files it is started with and whether Cython is there. *)
Definition expected_ending (w : World) (f : gmap string string)
    (d : gmap string tree) : Ending :=
  match f !! "fiona/__init__.py" with
  | None => EndsWith OSError
  | Some text =>
      if negb (forallb has_eq (version_lines text)) then EndsWith IndexError
      else if negb (is_set (last (version_lines text))) then EndsWith NameError
      else if negb (is_set (f !! "README.rst") && is_set (f !! "CREDITS.txt")
                    && is_set (f !! "CHANGES.txt"))
      then EndsWith OSError
      else if path_exists (initial f d) "MANIFEST.in"
              && negb (is_set (cythonize w))
      then EndsExit 1
      else EndsInSetup
  end.

(** A text without line breaks. *)
Fixpoint no_linebreak (s : string) : bool :=
  match s with
  | EmptyString => true
  | String c r => negb (Ascii.eqb c LF) && negb (Ascii.eqb c CR) && no_linebreak r
  end.

(** A line as a program prints it. *)
Definition printed (l : string) : string := l ++ String LF "".

(** A machine whose [gdal-config] prints nothing for [--cflags]. *)
Definition silent_cflags (prog arg : string) : exn + string :=
  if String.eqb arg "--cflags" then inr ""
  else if String.eqb arg "--libs" then inr (printed "-L/usr/lib -lgdal")
  else inr (printed "/usr/share/gdal").

Definition silent_world : World :=
  {| environ := ∅; warnoptions := []; version_info := (3, 8)%nat;
     call := silent_cflags; cythonize := None |}.

(** The wheel-building machine with PROJ_LIB naming a regular file. *)
Definition proj_file_world : World :=
  {| environ := {["PACKAGE_DATA" := "1"; "PROJ_LIB" := "README.rst"]};
     warnoptions := []; version_info := (3, 8)%nat;
     call := no_gdal_config; cythonize := None |}.

Definition staged_tree : tree := [("epsg", "# EPSG")].

Definition staged_dirs : gmap string tree :=
  {["fiona/proj_data" := staged_tree; "/usr/share/proj" := staged_tree]}.

(** The option lists once the block of lines 56-88 is through,
    starting from [o]: gathered from the first two lines read back
    when the three calls answered, untouched when one raised. *)
Definition gdal_options (w : World) (o : Options) : Options :=
  match call w (gdal_config w) "--cflags",
        call w (gdal_config w) "--libs",
        call w (gdal_config w) "--datadir" with
  | inr t1, inr t2, inr t3 =>
      let '(cflags, libs, _) := read_config ((t1 ++ t2) ++ t3) in
      gathered o cflags libs
  | _, _, _ => o
  end.

Definition is_traceback (o : Outcome) : bool :=
  match o with Traceback _ _ => true | _ => false end.

(** The arguments [setup] is called with, when it is called. *)
Definition called_with (o : Outcome) : option SetupArgs :=
  match o with SetupCalled args _ => Some args | _ => None end.

(** Two sets of files that differ at most in the two files the script
    writes. *)
Definition agree_but_outputs (f f' : gmap string string) : Prop :=
  forall p, p <> "VERSION.txt" -> p <> "gdal-config.txt" -> f !! p = f' !! p.

(** A source distribution unpacked over the remains of an earlier
    build. *)
Definition rebuilt_files : gmap string string :=
  <["VERSION.txt" := "0.9"]>
    (<["gdal-config.txt" := "-I/opt/gdal/include"]> (sdist_files init_plain)).

(** *** Paths that are apart *)






(** *** The claims on staging and on the options, as worded *)


(** The claim as worded: the lists are gathered from the tokens of
    the [--cflags] output and of the [--libs] output. *)
Definition options_from_the_outputs : Prop :=
  forall (w : World) (s : State) (t1 t2 t3 : string),
    call w (gdal_config w) "--cflags" = inr t1 ->
    call w (gdal_config w) "--libs" = inr t2 ->
    call w (gdal_config w) "--datadir" = inr t3 ->
    exists s',
      gdal_block w s = Ok tt s'
      /\ options s' = gathered (options s) t1 t2.



(** A source distribution whose README has DOS line ends. *)
Definition dos_files : gmap string string :=
  <["README.rst" := "Fiona" ++ String CR (String LF "")]>
    (sdist_files init_plain).

(** *** What the script reads *)

(** The files the script opens for reading, and the one whose
    existence it tests. *)
Definition inputs : list string :=
  ["fiona/__init__.py"; "README.rst"; "CREDITS.txt"; "CHANGES.txt";
   "MANIFEST.in"].

(** [cythonize] is not called: there is no [MANIFEST.in], or Cython
    is missing and the script leaves on line 113. *)
Definition no_cythonize_call (w : World) (f : gmap string string)
    (d : gmap string tree) : bool :=
  negb (path_exists (initial f d) "MANIFEST.in") || negb (is_set (cythonize w)).

(** The same machine with another gdal-config. *)
Definition with_call (c : string -> string -> exn + string) (w : World)
    : World :=
  {| environ := environ w; warnoptions := warnoptions w;
     version_info := version_info w; call := c; cythonize := cythonize w |}.

End SetupPy.

(** ** The access engine

    The engine itself (the Cython modules [fiona._geometry],
    [fiona._transform], [fiona._drivers], [fiona._err] and
    [fiona.ogrext] that lines 114-127 of [setup.py] name) is not part
    of the sources at hand; its contracts are modelled below from the
    specification. *)

Module Engine.

Local Open Scope Z_scope.

(** *** Error taxonomy and translator *)

(** Modelled from the spec: the error kinds of the taxonomy table
    (section 7); the implementation in [fiona._err] is missing. *)
Inductive ErrorKind : Type :=
| DriverNotFound
| DataSourceOpenError
| LayerNotFound
| SchemaMismatch
| UnsupportedOperation
| GeometryConversionError
| CRSTransformError
| NativeWarning
| NativeFatalError.

Inductive Severity : Type := SevWarning | SevError | SevFatal.

(** Modelled from the spec: ErrorRecord of section 3. *)
Record ErrorRecord : Type := {
  severity : Severity;
  code : Z;
  message : string
}.

(** Modelled from the spec: a structured error of section 7 (the
    implementation in [fiona._err] is missing): its kind, with the
    native code and message it retains. *)
Record EngineError : Type := {
  err_kind : ErrorKind;
  err_code : Z;
  err_message : string
}.

Inductive Res (A : Type) : Type :=
| Success (a : A)
| Failure (e : EngineError).
Arguments Success {A} a.
Arguments Failure {A} e.

(** An error the engine raises on its own, with no native record. *)
Definition engine_error (k : ErrorKind) (msg : string) : EngineError :=
  {| err_kind := k; err_code := 0; err_message := msg |}.

(** Modelled from the spec: an operation run under the capture
    context (section 4.6; [fiona._err] is missing), as the native
    diagnostics it signals, in order, and the value it returns when
    it is left to finish. *)
Inductive Native (A : Type) : Type :=
| Done (a : A)
| Signal (r : ErrorRecord) (k : Native A).
Arguments Done {A} a.
Arguments Signal {A} r k.

Fixpoint signals {A} (op : Native A) : list ErrorRecord :=
  match op with
  | Done _ => []
  | Signal r k => r :: signals k
  end.

Fixpoint native_result {A} (op : Native A) : A :=
  match op with
  | Done a => a
  | Signal _ k => native_result k
  end.

(** What the capture context hands back: the result with the
    warnings attached, or the structured error raised, with the
    records collected before it. *)
Inductive Captured (A : Type) : Type :=
| Completed (a : A) (warnings : list ErrorRecord)
| Aborted (e : EngineError) (collected : list ErrorRecord).
Arguments Completed {A} a warnings.
Arguments Aborted {A} e collected.

(** Modelled from the spec: the severity policy of section 4.6.
    [kind] is the structured kind an error of the running operation
    is raised as; a fatal record is raised as [NativeFatalError]. *)
Definition raise_record (kind : ErrorKind) (r : ErrorRecord) : EngineError :=
  {| err_kind := match severity r with
                 | SevFatal => NativeFatalError
                 | _ => kind
                 end;
     err_code := code r;
     err_message := message r |}.

(** Modelled from the spec: the capture loop of section 4.6; a
    warning is collected and the operation goes on, an error or fatal
    record ends it. *)
Fixpoint capture {A} (kind : ErrorKind) (op : Native A)
    (collected : list ErrorRecord) : Captured A :=
  match op with
  | Done a => Completed a collected
  | Signal r k =>
      match severity r with
      | SevWarning => capture kind k (collected ++ [r])
      | _ => Aborted (raise_record kind r) collected
      end
  end.

(** Modelled from the spec: [with_error_capture(operation)]. *)
Definition with_error_capture {A} (kind : ErrorKind) (op : Native A)
    : Captured A :=
  capture kind op [].

Definition is_warning (r : ErrorRecord) : bool :=
  match severity r with SevWarning => true | _ => false end.

(** *** Geometry model and codec *)

(** Modelled from the spec: a coordinate tuple (x, y, optional z,
    optional m) of section 3. A coordinate is an IEEE-754 double,
    kept as its 64-bit pattern, so that equality is exact. *)
Record Coord : Type := {
  cx : Z;
  cy : Z;
  cz : option Z;
  cm : option Z
}.

(** Modelled from the spec: the Geometry variant of section 3. *)
Inductive Geometry : Type :=
| Point (c : Coord)
| LineString (cs : list Coord)
| Polygon (rings : list (list Coord))
| MultiPoint (pts : list Coord)
| MultiLineString (parts : list (list Coord))
| MultiPolygon (polys : list (list (list Coord)))
| GeometryCollection (gs : list Geometry).

(** Dimensionality: has z, has m. *)
Definition Dims : Type := (bool * bool)%type.

Definition is_some {A} (o : option A) : bool :=
  match o with Some _ => true | None => false end.

Definition coord_dims (c : Coord) : Dims := (is_some (cz c), is_some (cm c)).

Definition dims_eqb (a b : Dims) : bool :=
  Bool.eqb (fst a) (fst b) && Bool.eqb (snd a) (snd b).

(** The dimensionality a run of coordinates is written under: that
    of its first tuple, 2D when it is empty. *)
Definition group_dims (cs : list Coord) : Dims :=
  match cs with
  | c :: _ => coord_dims c
  | [] => (false, false)
  end.

Fixpoint coords_of (g : Geometry) : list Coord :=
  match g with
  | Point c => [c]
  | LineString cs => cs
  | Polygon rings => concat rings
  | MultiPoint pts => pts
  | MultiLineString parts => concat parts
  | MultiPolygon polys => concat (concat polys)
  | GeometryCollection gs => flat_map coords_of gs
  end.

Definition uniform (cs : list Coord) : bool :=
  forallb (fun c => dims_eqb (coord_dims c) (group_dims cs)) cs.

(** Modelled from the spec: the invariant of section 3, the
    dimensionality is uniform within one Geometry value; the members
    of a collection are Geometry values of their own. *)
Fixpoint uniform_dims (g : Geometry) : bool :=
  match g with
  | GeometryCollection gs => forallb uniform_dims gs
  | _ => uniform (coords_of g)
  end.

(** Little-endian bytes of a word, and back. A byte is a [Z] in
    [0, 256). *)
Fixpoint encode_le (n : nat) (z : Z) : list Z :=
  match n with
  | O => []
  | S n' => z mod 256 :: encode_le n' (z / 256)
  end.

Fixpoint decode_le (bs : list Z) : Z :=
  match bs with
  | [] => 0
  | b :: r => b + 256 * decode_le r
  end.

(** Reading [n] bytes as a word; [None] when fewer are left. *)
Definition take_le (n : nat) (bs : list Z) : option (Z * list Z) :=
  if Nat.leb n (length bs)
  then Some (decode_le (firstn n bs), skipn n bs)
  else None.

Definition dims_code (d : Dims) : Z :=
  (if fst d then 1000 else 0) + (if snd d then 2000 else 0).

(** Modelled from the spec: the native binary encoding is not
    described byte by byte and [fiona._geometry] is missing; it is
    modelled on the well-known-binary layout of the native library:
    a byte-order mark (1, little endian), a 32-bit type tag (1-7 for
    the seven variants, plus 1000 with z and 2000 with m), then the
    payload: coordinates as 64-bit words, sequences behind a 32-bit
    count, the members of a multi-geometry or collection each as a
    whole geometry, in order. *)
Definition header (d : Dims) (tag : Z) : list Z :=
  1 :: encode_le 4 (tag + dims_code d).

Definition encode_opt (o : option Z) : list Z :=
  match o with
  | Some z => encode_le 8 z
  | None => []
  end.

Definition encode_coord (c : Coord) : list Z :=
  (encode_le 8 (cx c) ++ encode_le 8 (cy c) ++ encode_opt (cz c)
   ++ encode_opt (cm c))%list.

Definition encode_seq {A} (item : A -> list Z) (l : list A) : list Z :=
  (encode_le 4 (Z.of_nat (length l)) ++ flat_map item l)%list.

Definition encode_point (c : Coord) : list Z :=
  (header (coord_dims c) 1 ++ encode_coord c)%list.

Definition encode_linestring (cs : list Coord) : list Z :=
  (header (group_dims cs) 2 ++ encode_seq encode_coord cs)%list.

Definition encode_polygon (rings : list (list Coord)) : list Z :=
  (header (group_dims (concat rings)) 3
   ++ encode_seq (encode_seq encode_coord) rings)%list.

(** Modelled from the spec: the encoder of section 4.4, variant by
    variant, members in their order. *)
Fixpoint encode_geom (g : Geometry) : list Z :=
  match g with
  | Point c => encode_point c
  | LineString cs => encode_linestring cs
  | Polygon rings => encode_polygon rings
  | MultiPoint pts =>
      (header (group_dims pts) 4 ++ encode_seq encode_point pts)%list
  | MultiLineString parts =>
      (header (group_dims (concat parts)) 5
       ++ encode_seq encode_linestring parts)%list
  | MultiPolygon polys =>
      (header (group_dims (concat (concat polys))) 6
       ++ encode_seq encode_polygon polys)%list
  | GeometryCollection gs =>
      (header (group_dims (flat_map coords_of gs)) 7
       ++ encode_le 4 (Z.of_nat (length gs)) ++ flat_map encode_geom gs)%list
  end.

(** Modelled from the spec: [encode(Geometry)] of section 4.4. *)
Definition encode (g : Geometry) : list Z := encode_geom g.

(** A parser reads a value off the front of the bytes. *)
Definition Parser (A : Type) : Type := list Z -> option (A * list Z).

Definition decode_header : Parser (Dims * Z) :=
  fun bs =>
    match bs with
    | 1 :: r =>
        match take_le 4 r with
        | Some (t, r') =>
            let tag := t mod 1000 in
            let flags := t / 1000 in
            if (1 <=? tag) && (tag <=? 7) && (0 <=? flags) && (flags <=? 3)
            then Some (((flags =? 1) || (flags =? 3),
                        (flags =? 2) || (flags =? 3), tag), r')
            else None
        | None => None
        end
    | _ => None
    end.

Definition decode_opt (present : bool) : Parser (option Z) :=
  fun bs =>
    if present then
      match take_le 8 bs with
      | Some (z, r) => Some (Some z, r)
      | None => None
      end
    else Some (None, bs).

Definition decode_coord (d : Dims) : Parser Coord :=
  fun bs =>
    match take_le 8 bs with
    | Some (x, r1) =>
        match take_le 8 r1 with
        | Some (y, r2) =>
            match decode_opt (fst d) r2 with
            | Some (z, r3) =>
                match decode_opt (snd d) r3 with
                | Some (m, r4) =>
                    Some ({| cx := x; cy := y; cz := z; cm := m |}, r4)
                | None => None
                end
            | None => None
            end
        | None => None
        end
    | None => None
    end.

(** [n] items, one after the other. *)
Fixpoint decode_items {A} (item : Parser A) (n : nat) : Parser (list A) :=
  fun bs =>
    match n with
    | O => Some ([], bs)
    | S n' =>
        match item bs with
        | Some (a, r) =>
            match decode_items item n' r with
            | Some (l, r') => Some (a :: l, r')
            | None => None
            end
        | None => None
        end
    end.

(** A 32-bit count, then that many items. *)
Definition decode_seq {A} (item : Parser A) : Parser (list A) :=
  fun bs =>
    match take_le 4 bs with
    | Some (n, r) => decode_items item (Z.to_nat n) r
    | None => None
    end.

Definition decode_rings (d : Dims) : Parser (list (list Coord)) :=
  decode_seq (decode_seq (decode_coord d)).

(** A member of a multi-geometry: a whole geometry of the tag the
    parent asks for. *)
Definition decode_member {A} (tag : Z) (payload : Dims -> Parser A)
    : Parser A :=
  fun bs =>
    match decode_header bs with
    | Some ((d, t), r) => if t =? tag then payload d r else None
    | None => None
    end.

Definition wrap {A B} (mk : A -> B) (p : Parser A) : Parser B :=
  fun bs =>
    match p bs with
    | Some (a, r) => Some (mk a, r)
    | None => None
    end.

(** Modelled from the spec: the decoder of section 4.4, variant by
    variant; [fuel] bounds the nesting of collections. *)
Fixpoint decode_geom (fuel : nat) : Parser Geometry :=
  fun bs =>
    match fuel with
    | O => None
    | S fuel' =>
        match decode_header bs with
        | Some ((d, tag), r) =>
            if tag =? 1 then wrap Point (decode_coord d) r
            else if tag =? 2 then
              wrap LineString (decode_seq (decode_coord d)) r
            else if tag =? 3 then wrap Polygon (decode_rings d) r
            else if tag =? 4 then
              wrap MultiPoint (decode_seq (decode_member 1 decode_coord)) r
            else if tag =? 5 then
              wrap MultiLineString
                (decode_seq
                   (decode_member 2 (fun d' => decode_seq (decode_coord d')))) r
            else if tag =? 6 then
              wrap MultiPolygon (decode_seq (decode_member 3 decode_rings)) r
            else if tag =? 7 then
              wrap GeometryCollection (decode_seq (decode_geom fuel')) r
            else None
        | None => None
        end
    end.

(** Modelled from the spec: [decode(bytes)] of section 4.4; anything
    that is not exactly one well-formed geometry is a
    [GeometryConversionError]. No nesting is deeper than the bytes
    are long. *)
Definition decode (bs : list Z) : Res Geometry :=
  match decode_geom (S (length bs)) bs with
  | Some (g, []) => Success g
  | _ => Failure (engine_error GeometryConversionError "malformed geometry")
  end.








(** *** Schema model, features, drivers *)

Inductive Primitive : Type := PInteger | PReal | PString | PDate | PBinary.

(** Modelled from the spec: FieldSchema of section 3. *)
Inductive FieldType : Type :=
| Prim (p : Primitive)
| ListOf (p : Primitive).

Record FieldSchema : Type := {
  field_name : string;
  field_type : FieldType;
  field_width : nat;
  field_precision : nat
}.

Inductive GeometryType : Type :=
| GTPoint | GTLineString | GTPolygon | GTMultiPoint | GTMultiLineString
| GTMultiPolygon | GTGeometryCollection | GTUnknown.

Inductive Scalar : Type :=
| SInteger (z : Z)
| SReal (bits : Z)
| SString (s : string)
| SDate (s : string)
| SBinary (bs : list Z).

Inductive Value : Type :=
| One (s : Scalar)
| Many (l : list Scalar).

Definition scalar_has (p : Primitive) (s : Scalar) : bool :=
  match p, s with
  | PInteger, SInteger _ | PReal, SReal _ | PString, SString _
  | PDate, SDate _ | PBinary, SBinary _ => true
  | _, _ => false
  end.

Definition value_has (t : FieldType) (v : Value) : bool :=
  match t, v with
  | Prim p, One s => scalar_has p s
  | ListOf p, Many l => forallb (scalar_has p) l
  | _, _ => false
  end.

(** Modelled from the spec: Feature of section 3. *)
Record Feature : Type := {
  feature_id : option Z;
  attributes : list (string * Value);
  geometry : option Geometry
}.

(** A feature as the backend keeps it: the geometry in the native
    binary encoding. *)
Record NativeFeature : Type := {
  nf_id : Z;
  nf_attributes : list (string * Value);
  nf_geometry : option (list Z)
}.

(** Modelled from the spec: DriverDescriptor of section 3. *)
Record DriverDescriptor : Type := {
  driver_name : string;
  can_read : bool;
  can_write : bool;
  can_append : bool;
  can_delete_layer : bool;
  can_create_datasource : bool
}.

Inductive OpenMode : Type := ReadOnly | ReadWrite.

(** Modelled from the spec: Layer of section 3, as the backend holds
    it. *)
Record LayerData : Type := {
  layer_name : string;
  layer_fields : list FieldSchema;
  layer_geometry_type : GeometryType;
  layer_crs : option string;
  layer_features : list NativeFeature
}.

(** Modelled from the spec: DataSource of section 3, with the
    liveness flag of the design notes (section 9), checked before
    each operation. *)
Record DataSource : Type := {
  ds_path : string;
  ds_mode : OpenMode;
  ds_driver : DriverDescriptor;
  ds_live : bool;
  ds_layers : list LayerData
}.

(** Modelled from the spec: the open resources of [fiona.ogrext]
    (missing), by handle, and the number of features pulled from the
    backend so far. *)
Record Store : Type := {
  sources : gmap nat DataSource;
  pulls : nat
}.

(** Modelled from the spec: a Layer object of section 4.3, as its
    owning source and its place there. *)
Record Layer : Type := {
  layer_source : nat;
  layer_index : nat
}.

(** Modelled from the spec: a Cursor object of section 4.3, as its
    Layer, the next position, the filters and the pending reprojection
    (a transform handle maps each vertex on its own). *)
Record Cursor : Type := {
  cursor_layer : Layer;
  cursor_pos : nat;
  cursor_bbox : option (Feature -> bool);
  cursor_attr : option (Feature -> bool);
  cursor_transform : option (Coord -> Coord)
}.

Definition res_bind {A B} (r : Res A) (k : A -> Res B) : Res B :=
  match r with
  | Success a => k a
  | Failure e => Failure e
  end.

Definition set_live (b : bool) (ds : DataSource) : DataSource :=
  {| ds_path := ds_path ds; ds_mode := ds_mode ds; ds_driver := ds_driver ds;
     ds_live := b; ds_layers := ds_layers ds |}.

Definition set_layers (l : list LayerData) (ds : DataSource) : DataSource :=
  {| ds_path := ds_path ds; ds_mode := ds_mode ds; ds_driver := ds_driver ds;
     ds_live := ds_live ds; ds_layers := l |}.

Definition set_features (fs : list NativeFeature) (ld : LayerData) : LayerData :=
  {| layer_name := layer_name ld; layer_fields := layer_fields ld;
     layer_geometry_type := layer_geometry_type ld; layer_crs := layer_crs ld;
     layer_features := fs |}.

Definition put_source (h : nat) (ds : DataSource) (st : Store) : Store :=
  {| sources := <[h := ds]> (sources st); pulls := pulls st |}.

Definition closed_source : EngineError :=
  engine_error UnsupportedOperation "closed source".

(** Modelled from the spec: the liveness check of section 9, made
    before each operation: the source behind the handle, when it is
    still open. *)
Definition live_source (st : Store) (h : nat) : Res DataSource :=
  match sources st !! h with
  | Some ds => if ds_live ds then Success ds else Failure closed_source
  | None => Failure closed_source
  end.

Definition live_layer (st : Store) (l : Layer) : Res (DataSource * LayerData) :=
  res_bind (live_source st (layer_source l)) (fun ds =>
    match ds_layers ds !! layer_index l with
    | Some ld => Success (ds, ld)
    | None => Failure (engine_error LayerNotFound "no such layer")
    end).

Definition writable (ds : DataSource) : bool :=
  match ds_mode ds with
  | ReadWrite => can_write (ds_driver ds)
  | ReadOnly => false
  end.

(** *** Data source operations (section 4.2) *)

(** Modelled from the spec: [close()]; the release clears the
    liveness flag and cannot fail. *)
Definition close (h : nat) (st : Store) : Store :=
  {| sources := alter (set_live false) h (sources st); pulls := pulls st |}.

(** Modelled from the spec: [list_layers()]. *)
Definition list_layers (h : nat) (st : Store) : Res (list string) :=
  res_bind (live_source st h) (fun ds =>
    Success (map layer_name (ds_layers ds))).

Fixpoint index_of_layer (name : string) (l : list LayerData) (i : nat)
    : option nat :=
  match l with
  | [] => None
  | ld :: rest =>
      if String.eqb (layer_name ld) name then Some i
      else index_of_layer name rest (S i)
  end.

(** Modelled from the spec: [layer(name_or_index)]. *)
Definition layer (h : nat) (which : string + nat) (st : Store) : Res Layer :=
  res_bind (live_source st h) (fun ds =>
    let found :=
      match which with
      | inl name => index_of_layer name (ds_layers ds) 0
      | inr i => if Nat.ltb i (length (ds_layers ds)) then Some i else None
      end in
    match found with
    | Some i => Success {| layer_source := h; layer_index := i |}
    | None => Failure (engine_error LayerNotFound "no such layer")
    end).

(** Modelled from the spec: [create_layer(...)]; the write
    capability of the driver stands for its layer-creation
    capability. *)
Definition create_layer (h : nat) (name : string) (gt : GeometryType)
    (fields : list FieldSchema) (crs : option string) (st : Store)
    : Res (Layer * Store) :=
  res_bind (live_source st h) (fun ds =>
    if writable ds then
      let ld := {| layer_name := name; layer_fields := fields;
                   layer_geometry_type := gt; layer_crs := crs;
                   layer_features := [] |} in
      Success ({| layer_source := h; layer_index := length (ds_layers ds) |},
               put_source h (set_layers (ds_layers ds ++ [ld]) ds) st)
    else Failure (engine_error UnsupportedOperation "read-only source")).

(** *** Layer operations (section 4.3) *)

(** Modelled from the spec: [schema()]. *)
Definition schema (l : Layer) (st : Store)
    : Res (list FieldSchema * GeometryType * option string) :=
  res_bind (live_layer st l) (fun '(_, ld) =>
    Success (layer_fields ld, layer_geometry_type ld, layer_crs ld)).

(** Modelled from the spec: [cursor(bbox_filter?, attribute_filter?,
    target_crs?)]; the filters are kept as tests on a feature, the
    target CRS as the transform handle built for it. *)
Definition cursor (l : Layer) (bbox attr : option (Feature -> bool))
    (transform : option (Coord -> Coord)) (st : Store) : Res Cursor :=
  res_bind (live_layer st l) (fun _ =>
    Success {| cursor_layer := l; cursor_pos := 0; cursor_bbox := bbox;
               cursor_attr := attr; cursor_transform := transform |}).

Definition lookup_attr (name : string) (attrs : list (string * Value))
    : option Value :=
  match List.find (fun kv => String.eqb (fst kv) name) attrs with
  | Some kv => Some (snd kv)
  | None => None
  end.

(** A feature fits a schema when every declared field is there with
    a value of its type and no other field is. *)
Definition compatible (fields : list FieldSchema) (f : Feature) : bool :=
  forallb (fun fs =>
      match lookup_attr (field_name fs) (attributes f) with
      | Some v => value_has (field_type fs) v
      | None => false
      end) fields
  && forallb (fun kv =>
      existsb (fun fs => String.eqb (field_name fs) (fst kv)) fields)
     (attributes f).

Definition to_native (id : Z) (f : Feature) : NativeFeature :=
  {| nf_id := id; nf_attributes := attributes f;
     nf_geometry := option_map encode (geometry f) |}.

Definition put_layer (l : Layer) (ds : DataSource) (ld : LayerData)
    (st : Store) : Store :=
  put_source (layer_source l)
    (set_layers (<[layer_index l := ld]> (ds_layers ds)) ds) st.

Definition fresh_id (fs : list NativeFeature) : Z :=
  1 + fold_right Z.max (-1) (map nf_id fs).

(** Modelled from the spec: [insert(feature)]; the identifier the
    backend assigns is handed back with the feature. *)
Definition insert (l : Layer) (f : Feature) (st : Store)
    : Res (Feature * Store) :=
  res_bind (live_layer st l) (fun '(ds, ld) =>
    if negb (writable ds) then
      Failure (engine_error UnsupportedOperation "layer is not writable")
    else if negb (compatible (layer_fields ld) f) then
      Failure (engine_error SchemaMismatch "feature does not fit the schema")
    else
      let id := fresh_id (layer_features ld) in
      Success ({| feature_id := Some id; attributes := attributes f;
                  geometry := geometry f |},
               put_layer l ds
                 (set_features (layer_features ld ++ [to_native id f]) ld) st)).

Definition has_id (id : Z) (nf : NativeFeature) : bool := nf_id nf =? id.

(** Modelled from the spec: [update(feature)]. The spec leaves open
    how a missing or unknown identifier is reported; here it is a
    [SchemaMismatch], like any other feature that does not fit. *)
Definition update (l : Layer) (f : Feature) (st : Store) : Res Store :=
  res_bind (live_layer st l) (fun '(ds, ld) =>
    if negb (writable ds) then
      Failure (engine_error UnsupportedOperation "layer is not writable")
    else
      match feature_id f with
      | Some id =>
          if existsb (has_id id) (layer_features ld)
             && compatible (layer_fields ld) f
          then Success (put_layer l ds
                 (set_features
                    (map (fun nf => if has_id id nf then to_native id f else nf)
                       (layer_features ld)) ld) st)
          else Failure (engine_error SchemaMismatch "feature does not fit")
      | None => Failure (engine_error SchemaMismatch "feature has no identifier")
      end).

(** Modelled from the spec: [delete(identifier)]; deleting an
    identifier that is not there changes nothing. *)
Definition delete (l : Layer) (id : Z) (st : Store) : Res Store :=
  res_bind (live_layer st l) (fun '(ds, ld) =>
    if negb (writable ds) then
      Failure (engine_error UnsupportedOperation "layer is not writable")
    else
      Success (put_layer l ds
        (set_features
           (List.filter (fun nf => negb (has_id id nf)) (layer_features ld)) ld)
        st)).

(** *** Cursor iteration (section 4.3) *)

(** Modelled from the spec: [apply(transform_handle, Geometry)],
    every vertex mapped on its own, the structure kept. *)
Fixpoint apply_transform (t : Coord -> Coord) (g : Geometry) : Geometry :=
  match g with
  | Point c => Point (t c)
  | LineString cs => LineString (map t cs)
  | Polygon rings => Polygon (map (map t) rings)
  | MultiPoint pts => MultiPoint (map t pts)
  | MultiLineString parts => MultiLineString (map (map t) parts)
  | MultiPolygon polys => MultiPolygon (map (map (map t)) polys)
  | GeometryCollection gs => GeometryCollection (map (apply_transform t) gs)
  end.

(** Modelled from the spec: the decoding of what [next()] pulled,
    through the geometry codec (section 4.3). *)
Definition decode_feature (nf : NativeFeature) : Res Feature :=
  match nf_geometry nf with
  | None =>
      Success {| feature_id := Some (nf_id nf);
                 attributes := nf_attributes nf; geometry := None |}
  | Some bs =>
      res_bind (decode bs) (fun g =>
        Success {| feature_id := Some (nf_id nf);
                   attributes := nf_attributes nf; geometry := Some g |})
  end.

Definition passes (c : Cursor) (f : Feature) : bool :=
  match cursor_bbox c with Some p => p f | None => true end
  && match cursor_attr c with Some p => p f | None => true end.

Definition reproject (c : Cursor) (f : Feature) : Feature :=
  match cursor_transform c with
  | Some t =>
      {| feature_id := feature_id f; attributes := attributes f;
         geometry := option_map (apply_transform t) (geometry f) |}
  | None => f
  end.

Definition advance (c : Cursor) : Cursor :=
  {| cursor_layer := cursor_layer c; cursor_pos := S (cursor_pos c);
     cursor_bbox := cursor_bbox c; cursor_attr := cursor_attr c;
     cursor_transform := cursor_transform c |}.

Definition count_pull (st : Store) : Store :=
  {| sources := sources st; pulls := S (pulls st) |}.

(** What one [next()] call gives: a feature, the end of the
    sequence, or a failure; each with the cursor and store it
    leaves. *)
Inductive Step : Type :=
| Yield (f : Feature) (c : Cursor) (st : Store)
| EndOfSequence (c : Cursor) (st : Store)
| Failed (e : EngineError) (c : Cursor) (st : Store).

(** Modelled from the spec: the pull loop of [next()] (section 4.3)
    over the features left: each is decoded, checked again against
    the filters (the backend may only approximate them) and, when it
    passes, reprojected and yielded; one that does not pass is
    skipped. *)
Fixpoint scan (left : list NativeFeature) (c : Cursor) (st : Store) : Step :=
  match left with
  | [] => EndOfSequence c st
  | nf :: rest =>
      let c' := advance c in
      let st' := count_pull st in
      match decode_feature nf with
      | Failure e => Failed e c' st'
      | Success f =>
          if passes c f then Yield (reproject c f) c' st'
          else scan rest c' st'
      end
  end.

(** Modelled from the spec: [next()] on a Cursor. *)
Definition next (c : Cursor) (st : Store) : Step :=
  match live_layer st (cursor_layer c) with
  | Failure e => Failed e c st
  | Success (_, ld) => scan (skipn (cursor_pos c) (layer_features ld)) c st
  end.


(** *** Auxiliary notions and sample values *)

Definition deprecation : ErrorRecord :=
  {| severity := SevWarning; code := 1; message := "deprecated option" |}.

Definition cannot_open : ErrorRecord :=
  {| severity := SevError; code := 4; message := "unable to open" |}.




Definition sample_coord (x y : Z) (z : option Z) : Coord :=
  {| cx := x; cy := y; cz := z; cm := None |}.


(** Two tuples of different dimensionality in one line string. *)
Definition mixed_line : Geometry :=
  LineString [ sample_coord 1 2 None; sample_coord 3 4 (Some 5) ].

(** The doubles 1.0 and 2.0, as bit patterns. *)
Definition one_point_zero : Z := 4607182418800017408.
Definition two_point_zero : Z := 4611686018427387904.

Definition sample_driver : DriverDescriptor :=
  {| driver_name := "ESRI Shapefile"; can_read := true; can_write := true;
     can_append := true; can_delete_layer := true;
     can_create_datasource := true |}.

Definition place_a : NativeFeature :=
  {| nf_id := 0; nf_attributes := [("name", One (SString "a"))];
     nf_geometry :=
       Some (encode (Point (sample_coord one_point_zero two_point_zero None))) |}.

Definition place_b : NativeFeature :=
  {| nf_id := 1; nf_attributes := [("name", One (SString "b"))];
     nf_geometry := None |}.

Definition places : LayerData :=
  {| layer_name := "places";
     layer_fields := [ {| field_name := "name"; field_type := Prim PString;
                          field_width := 80; field_precision := 0 |} ];
     layer_geometry_type := GTPoint; layer_crs := None;
     layer_features := [place_a; place_b] |}.

Definition sample_source : DataSource :=
  {| ds_path := "places.shp"; ds_mode := ReadOnly; ds_driver := sample_driver;
     ds_live := true; ds_layers := [places] |}.

Definition sample_store : Store :=
  {| sources := {[ 0%nat := sample_source ]}; pulls := 0 |}.

Definition places_layer : Layer := {| layer_source := 0; layer_index := 0 |}.

(** A fresh cursor over [places] with a bounding filter that every
    feature passes. *)
Definition places_cursor : Cursor :=
  {| cursor_layer := places_layer; cursor_pos := 0;
     cursor_bbox := Some (fun _ => true); cursor_attr := None;
     cursor_transform := None |}.

Definition feature_a : Feature :=
  {| feature_id := Some 0; attributes := [("name", One (SString "a"))];
     geometry := Some (Point (sample_coord one_point_zero two_point_zero None)) |}.

Definition feature_b : Feature :=
  {| feature_id := Some 1; attributes := [("name", One (SString "b"))];
     geometry := None |}.

(** A stored feature whose geometry bytes are no encoding. *)
Definition place_bad : NativeFeature :=
  {| nf_id := 0; nf_attributes := [("name", One (SString "a"))];
     nf_geometry := Some [] |}.

(** The sample source with a layer of two features, the first of
    which does not decode. *)
Definition broken_places : LayerData := set_features [place_bad; place_b] places.

Definition broken_store : Store :=
  {| sources := {[ 0%nat := set_layers [broken_places] sample_source ]};
     pulls := 0 |}.

(** A fresh cursor without filters. *)
Definition plain_cursor : Cursor :=
  {| cursor_layer := places_layer; cursor_pos := 0;
     cursor_bbox := None; cursor_attr := None; cursor_transform := None |}.


End Engine.

(** * Properties of the build script *)

Import SetupPy.

Example split_ws_ex :
  split_ws "  -I/usr/include  -I/a:/b -DX " = ["-I/usr/include"; "-I/a:/b"; "-DX"].
Proof. reflexivity. Qed.

Example split_sep_ex : split_sep ":" "/a::/b" = ["/a"; ""; "/b"].
Proof. reflexivity. Qed.

Example lines_ex :
  lines (String "a" (String CR (String LF (String "b" (String LF "c")))))
  = [String "a" (String LF ""); String "b" (String LF ""); "c"].
Proof. reflexivity. Qed.

Example strip_ex : strip_chars "'" (strip "  'x y'  ") = "x y".
Proof. reflexivity. Qed.

Example universal_newlines_ex :
  universal_newlines
    ("a" ++ String CR (String LF ("b" ++ String CR ("c" ++ String LF ""))))
  = "a" ++ String LF ("b" ++ String LF ("c" ++ String LF "")).
Proof. reflexivity. Qed.

Example find_ex : find "__version__" "a __version__ = 1" = 2%Z
                  /\ find "__version__" "nothing" = (-1)%Z.
Proof. split; reflexivity. Qed.

(** ** Record bookkeeping *)

Lemma State_eta (s : State) :
  {| files := files s; dirs := dirs s; log_level := log_level s;
     log_records := log_records s; options := options s |} = s.
Proof. by destruct s. Qed.

Lemma Options_eta (o : Options) :
  {| include_dirs := include_dirs o; library_dirs := library_dirs o;
     libraries := libraries o; extra_link_args := extra_link_args o |} = o.
Proof. by destruct o. Qed.

Lemma set_dirs_same (s : State) : set_dirs (dirs s) s = s.
Proof. by destruct s. Qed.

Lemma set_options_same (s : State) : set_options (options s) s = s.
Proof. apply State_eta. Qed.

Lemma set_options_twice (o o' : Options) (s : State) :
  set_options o' (set_options o s) = set_options o' s.
Proof. reflexivity. Qed.

(** ** Loops over tokens *)

Lemma for_each_ext {A} (l : list A) (body body' : A -> M unit) (s : State) :
  (forall x s', body x s' = body' x s') ->
  for_each l body s = for_each l body' s.
Proof.
  intros Hext. revert s.
  induction l as [|x l IH]; intros s; simpl; [reflexivity|].
  unfold bind. rewrite Hext. destruct (body' x s); auto.
Qed.

(** A loop whose body only updates the option lists is a left fold. *)
Lemma for_each_upd {A} (l : list A) (step : A -> Options -> Options) (s : State) :
  for_each l (fun x => upd_options (step x)) s
  = Ok tt (set_options (fold_left (fun o x => step x o) l (options s)) s).
Proof.
  revert s. induction l as [|x l IH]; intros s; simpl.
  - unfold ret. by rewrite set_options_same.
  - unfold bind, upd_options, modify at 1. rewrite IH. reflexivity.
Qed.

Lemma parse_cflags_fold (cflags : string) (s : State) :
  parse_cflags cflags s
  = Ok tt (set_options
             (fold_left (fun o x => cflags_step x o) (split_ws cflags) (options s)) s).
Proof.
  unfold parse_cflags. rewrite <- for_each_upd.
  apply for_each_ext. intros x s'. unfold cflags_step, when, upd_options, modify, ret.
  destruct (startswith "-I" x); [reflexivity|]. by rewrite set_options_same.
Qed.

Lemma parse_libs_fold (libs : string) (s : State) :
  parse_libs libs s
  = Ok tt (set_options
             (fold_left (fun o x => libs_step x o) (split_ws libs) (options s)) s).
Proof.
  unfold parse_libs. rewrite <- for_each_upd.
  apply for_each_ext. intros x s'. unfold libs_step.
  destruct (startswith "-L" x); [reflexivity|].
  destruct (startswith "-l" x); reflexivity.
Qed.

(** ** The classification *)

Lemma L_not_l (t : string) : startswith "-L" t = true -> startswith "-l" t = false.
Proof.
  unfold startswith.
  destruct t as [|a [|b t]]; cbn -[ascii_dec]; try done.
  - destruct (ascii_dec "-" a); done.
  - destruct (ascii_dec "-" a); [|done].
    destruct (ascii_dec "L" b) as [<-|]; done.
Qed.

Lemma cflags_fold_spec (tokens : list string) (o : Options) :
  fold_left (fun o x => cflags_step x o) tokens o
  = {| include_dirs := include_dirs o ++ dirs_of "-I" tokens;
       library_dirs := library_dirs o;
       libraries := libraries o;
       extra_link_args := extra_link_args o |}.
Proof.
  revert o. induction tokens as [|t tokens IH]; intros o; simpl.
  - unfold dirs_of. simpl. rewrite app_nil_r. by rewrite Options_eta.
  - rewrite IH. unfold cflags_step, dirs_of. simpl.
    destruct (startswith "-I" t); simpl; [|reflexivity].
    by rewrite <- app_assoc.
Qed.

Lemma libs_fold_spec (tokens : list string) (o : Options) :
  fold_left (fun o x => libs_step x o) tokens o
  = {| include_dirs := include_dirs o;
       library_dirs := library_dirs o ++ dirs_of "-L" tokens;
       libraries :=
         libraries o ++ map (slice_from 2) (List.filter (startswith "-l") tokens);
       extra_link_args :=
         extra_link_args o
         ++ List.filter
              (fun t => negb (startswith "-L" t) && negb (startswith "-l" t))
              tokens |}.
Proof.
  revert o. induction tokens as [|t tokens IH]; intros o; simpl.
  - unfold dirs_of. simpl. rewrite !app_nil_r. by rewrite Options_eta.
  - rewrite IH. unfold libs_step, dirs_of. simpl.
    destruct (startswith "-L" t) eqn:HL; simpl.
    + rewrite (L_not_l t HL). simpl. by rewrite <- app_assoc.
    + destruct (startswith "-l" t); simpl; by rewrite <- ?app_assoc.
Qed.

Lemma parse_both (cflags libs : string) (s : State) :
  (parse_cflags cflags ;;; parse_libs libs) s
  = Ok tt (set_options (gathered (options s) cflags libs) s).
Proof.
  unfold bind. rewrite parse_cflags_fold, parse_libs_fold. simpl.
  rewrite cflags_fold_spec, libs_fold_spec. reflexivity.
Qed.

Example classification_of_sample_flags :
  gathered empty_options "-I/usr/include -DNDEBUG -I/a:/b"
           "-L/usr/lib -lgdal -framework GDAL -L/x:/y -lm"
  = {| include_dirs := ["/usr/include"; "/a"; "/b"];
       library_dirs := ["/usr/lib"; "/x"; "/y"];
       libraries := ["gdal"; "m"];
       extra_link_args := ["-framework"; "GDAL"] |}.
Proof. reflexivity. Qed.

(** C1. The entry-point text the script hands to [setup] holds two
    groups: one console script, named [fio], and the nine commands
    bounds, cat, collect, distrib, dump, env, info, insp and load,
    each bound to the function of its own name in [fiona.fio.fio]. *)
Theorem entry_points_registered :
  (forall w v readme changes credits exts,
      sa_entry_points (setup_args w v readme changes credits exts) = entry_points)
  /\ exists console commands,
      parse_entry_points entry_points
      = Some [("console_scripts", console); ("fiona.fio_commands", commands)]
      /\ map ep_name console = ["fio"]
      /\ map ep_name commands
         = ["bounds"; "cat"; "collect"; "distrib"; "dump"; "env"; "info";
            "insp"; "load"]
      /\ Forall (fun e => ep_module e = "fiona.fio.fio" /\ ep_attr e = ep_name e)
           commands.
Proof.
  split; [reflexivity|].
  eexists _, _. split; [vm_compute; reflexivity|].
  split; [reflexivity|]. split; [reflexivity|].
  repeat constructor.
Qed.

(** ** Splitting a line on the equals sign *)

Lemma split_sep_partition (c : ascii) (s : string) :
  split_sep c s
  = match partition c s with
    | Some (a, b) => a :: split_sep c b
    | None => [s]
    end.
Proof.
  induction s as [|x r IH]; simpl; [reflexivity|].
  destruct (Ascii.eqb x c); [reflexivity|].
  rewrite IH. destruct (partition c r) as [[a b]|]; reflexivity.
Qed.

Lemma split_sep_head (c : ascii) (s : string) :
  exists tl, split_sep c s
             = match partition c s with Some (a, _) => a | None => s end :: tl.
Proof.
  rewrite split_sep_partition.
  destruct (partition c s) as [[a b]|]; eauto.
Qed.

Lemma version_of_line_spec (line : string) (s : State) :
  version_of_line line s
  = if has_eq line then Ok (version_between line) s else Raise index_error s.
Proof.
  unfold version_of_line, has_eq, version_between, after_first_eq.
  rewrite split_sep_partition.
  destruct (partition "="%char line) as [[a b]|]; [|reflexivity].
  destruct (split_sep_head "="%char b) as [tl ->]. reflexivity.
Qed.

Lemma last_cons_or {A} (x : A) (l : list A) :
  last (x :: l) = Some (default x (last l)).
Proof.
  rewrite last_cons. destruct (last l); reflexivity.
Qed.

(** The loop of lines 24-29: an [IndexError] as soon as a line that
    contains [__version__] has no [=]; otherwise the last such line
    decides. *)
Lemma version_loop_spec (ls : list string) (v : option string) (s : State) :
  version_loop ls v s
  = if forallb has_eq (List.filter mentions_version ls) then
      Ok (match last (List.filter mentions_version ls) with
          | Some line => Some (version_between line)
          | None => v
          end) s
    else Raise index_error s.
Proof.
  revert v. induction ls as [|line rest IH]; intros v; simpl; [reflexivity|].
  fold (mentions_version line).
  destruct (mentions_version line); simpl; [|apply IH].
  unfold bind. rewrite version_of_line_spec.
  destruct (has_eq line); simpl; [|reflexivity].
  rewrite IH, last_cons_or.
  destruct (forallb has_eq (List.filter mentions_version rest)); [|reflexivity].
  destruct (last (List.filter mentions_version rest)); reflexivity.
Qed.

Lemma written_version (f : gmap string string) (v : string) :
  <["VERSION.txt" := default "" (<["VERSION.txt" := ""]> f !! "VERSION.txt") ++ v]>
    (<["VERSION.txt" := ""]> f)
  = <["VERSION.txt" := v]> f.
Proof. rewrite lookup_insert_eq, insert_insert_eq. reflexivity. Qed.

(** Lines 22-38 as a whole. *)
Lemma discover_version_spec (s : State) (text : string) :
  files s !! "fiona/__init__.py" = Some text ->
  discover_version s
  = if forallb has_eq (version_lines text) then
      match last (version_lines text) with
      | Some line =>
          Ok (Some (version_between line))
             (set_files (<["VERSION.txt" := version_between line]> (files s)) s)
      | None =>
          Raise name_error (set_files (<["VERSION.txt" := ""]> (files s)) s)
      end
    else Raise index_error s.
Proof.
  intros Hf.
  unfold discover_version, parse_version, bind, read_file. rewrite Hf.
  rewrite version_loop_spec. fold (version_lines text).
  destruct (forallb has_eq (version_lines text)); [|reflexivity].
  destruct (last (version_lines text)) as [line|]; [|reflexivity].
  unfold write_version, bind, open_w, load_name, append_file, modify, ret.
  simpl. rewrite written_version. reflexivity.
Qed.

(** ** What a step leaves of a file *)

Create HintDb keeps.

Lemma keeps_ret path {A} (a : A) : keeps path (ret a).
Proof. intros s. reflexivity. Qed.

Lemma keeps_raise path {A} (e : exn) : keeps path (@raise A e).
Proof. intros s. reflexivity. Qed.

Lemma keeps_sys_exit path {A} (c : Z) : keeps path (@sys_exit A c).
Proof. intros s. reflexivity. Qed.

Lemma keeps_get path : keeps path get.
Proof. intros s. reflexivity. Qed.

Lemma keeps_bind path {A B} (m : M A) (k : A -> M B) :
  keeps path m -> (forall a, keeps path (k a)) -> keeps path (bind m k).
Proof.
  intros Hm Hk s. unfold bind. specialize (Hm s).
  destruct (m s) as [a s'|e s'|c s']; simpl in *; [|assumption..].
  rewrite Hk. assumption.
Qed.

Lemma keeps_try_except path {A} (body : M A) catches handler :
  keeps path body -> (forall e, keeps path (handler e)) ->
  keeps path (try_except body catches handler).
Proof.
  intros Hb Hh s. unfold try_except. specialize (Hb s).
  destruct (body s) as [a s'|e s'|c s']; simpl in *; [assumption| |assumption].
  destruct (catches e); simpl; [|assumption].
  rewrite Hh. assumption.
Qed.

Lemma keeps_when path (b : bool) (m : M unit) :
  keeps path m -> keeps path (when b m).
Proof. destruct b; simpl; [auto|]. intros _. apply keeps_ret. Qed.

Lemma keeps_for_each path {A} (l : list A) (body : A -> M unit) :
  (forall x, keeps path (body x)) -> keeps path (for_each l body).
Proof.
  intros Hb. induction l as [|x l IH]; simpl.
  - apply keeps_ret.
  - apply keeps_bind; auto.
Qed.

Lemma keeps_modify path (f : State -> State) :
  (forall s, files (f s) = files s) -> keeps path (modify f).
Proof. intros Hf s. simpl. by rewrite Hf. Qed.

Lemma keeps_upd_options path (f : Options -> Options) :
  keeps path (upd_options f).
Proof. apply keeps_modify. reflexivity. Qed.

Lemma keeps_log_call path (level : nat) (msg : string) :
  keeps path (log_call level msg).
Proof. apply keeps_modify. intros s. destruct (Nat.leb _ _); reflexivity. Qed.

Lemma keeps_read_file path (p : string) : keeps path (read_file p).
Proof. intros s. unfold read_file. destruct (files s !! p); reflexivity. Qed.

Lemma keeps_open_w path (p : string) : p <> path -> keeps path (open_w p).
Proof. intros Hne s. simpl. by rewrite lookup_insert_ne. Qed.

Lemma keeps_append_file path (p text : string) :
  p <> path -> keeps path (append_file p text).
Proof. intros Hne s. simpl. by rewrite lookup_insert_ne. Qed.

Lemma keeps_subprocess_call path w prog arg (out : string) :
  out <> path -> keeps path (subprocess_call w prog arg out).
Proof.
  intros Hne. unfold subprocess_call.
  destruct (call w prog arg); [apply keeps_raise | by apply keeps_append_file].
Qed.

Lemma keeps_rmtree path (p : string) : keeps path (rmtree p).
Proof. intros s. unfold rmtree. destruct (dirs s !! p); reflexivity. Qed.

Lemma keeps_copytree path (src dst : string) : keeps path (copytree src dst).
Proof.
  intros s. unfold copytree.
  destruct (dirs s !! src); [|reflexivity].
  destruct (path_exists s dst); reflexivity.
Qed.

Lemma keeps_load_name path (n : string) (v : option string) :
  keeps path (load_name n v).
Proof. destruct v; [apply keeps_ret | apply keeps_raise]. Qed.

#[local] Hint Resolve keeps_ret keeps_raise keeps_sys_exit keeps_get
  keeps_try_except keeps_when keeps_for_each keeps_upd_options keeps_log_call
  keeps_read_file keeps_rmtree keeps_copytree keeps_load_name : keeps.

Ltac keeps_step :=
  first
    [ apply keeps_bind; [|intros ?]
    | apply keeps_open_w; discriminate
    | apply keeps_append_file; discriminate
    | apply keeps_subprocess_call; discriminate
    | apply keeps_modify; reflexivity
    | solve [auto with keeps] ].

Lemma keeps_stage_data path (src dst : string) : keeps path (stage_data src dst).
Proof. unfold stage_data. repeat keeps_step. Qed.

Lemma keeps_gdal_block (w : World) : keeps "VERSION.txt" (gdal_block w).
Proof.
  unfold gdal_block. apply keeps_try_except; [|auto with keeps].
  unfold gdal_body. repeat keeps_step.
  destruct (read_config _) as [[cflags libs] datadir].
  unfold parse_cflags, parse_libs. repeat keeps_step.
  - apply keeps_for_each. intros x.
    destruct (startswith "-L" x); [auto with keeps|].
    destruct (startswith "-l" x); auto with keeps.
  - apply keeps_when, keeps_stage_data.
Qed.

Lemma keeps_proj_block (w : World) : keeps "VERSION.txt" (proj_block w).
Proof.
  unfold proj_block. apply keeps_when. repeat keeps_step.
  apply keeps_when, keeps_stage_data.
Qed.

Lemma keeps_select_ext_modules (w : World) :
  keeps "VERSION.txt" (select_ext_modules w).
Proof.
  unfold select_ext_modules. repeat keeps_step.
  destruct (path_exists _ _); [|auto with keeps].
  repeat keeps_step. destruct (cythonize w); repeat keeps_step.
Qed.

Lemma keeps_finish (w : World) (version : option string) :
  keeps "VERSION.txt" (finish w version).
Proof.
  unfold finish.
  repeat first
    [ apply keeps_gdal_block | apply keeps_proj_block
    | apply keeps_select_ext_modules | keeps_step ].
Qed.

(** ** Reaching [setup] *)

Lemma bind_Ok {A B} (m : M A) (k : A -> M B) (s s' : State) (b : B) :
  bind m k s = Ok b s' -> exists a s1, m s = Ok a s1 /\ k a s1 = Ok b s'.
Proof.
  unfold bind. destruct (m s) as [a s1|e s1|c s1]; [eauto|discriminate..].
Qed.

Lemma finish_version (w : World) (version : option string) (s s' : State)
    (args : SetupArgs) :
  finish w version s = Ok args s' -> version = Some (sa_version args).
Proof.
  unfold finish. intros H.
  do 7 (apply bind_Ok in H; destruct H as (? & ? & _ & H)).
  apply bind_Ok in H. destruct H as (v & s1 & Hv & H).
  unfold ret in H. injection H as <- _.
  destruct version as [v'|]; [|discriminate].
  simpl in Hv. unfold ret in Hv. injection Hv as -> _. reflexivity.
Qed.

Lemma configure_logging_files (w : World) (s : State) :
  exists s', configure_logging w s = Ok tt s' /\ files s' = files s.
Proof.
  unfold configure_logging, when.
  destruct (bool_decide _); eexists; split; reflexivity.
Qed.

(** C10, as amended. With [fiona/__init__.py] readable: when a line
    that contains [__version__] has no [=], the script stops with an
    [IndexError]; otherwise, when no line contains [__version__], it
    stops with a [NameError]; otherwise the version is the text
    between the first [=] and the next [=] (or the end of the line)
    of the last line that contains [__version__], stripped of
    whitespace, then of double quotes, then of single quotes: that
    string is what lines 37-38 leave in [VERSION.txt], and whenever
    [setup] is reached it is its [version] and still the content of
    [VERSION.txt]. *)
Theorem version_derivation (w : World) (f : gmap string string)
    (d : gmap string tree) (text : string) :
  f !! "fiona/__init__.py" = Some text ->
  if forallb has_eq (version_lines text) then
    match last (version_lines text) with
    | Some line =>
        (exists s,
            (configure_logging w ;;; discover_version) (initial f d)
            = Ok (Some (version_between line)) s
            /\ files s !! "VERSION.txt" = Some (version_between line))
        /\ (forall args s,
               run w f d = SetupCalled args s ->
               sa_version args = version_between line
               /\ files s !! "VERSION.txt" = Some (version_between line))
    | None => exists s, run w f d = Traceback name_error s
    end
  else exists s, run w f d = Traceback index_error s.
Proof.
  intros Hf.
  destruct (configure_logging_files w (initial f d)) as (s0 & Hc & Hf0).
  assert (Hd := discover_version_spec s0 text).
  rewrite Hf0 in Hd. specialize (Hd Hf).
  unfold run, script, bind. rewrite Hc.
  destruct (forallb has_eq (version_lines text)).
  - destruct (last (version_lines text)) as [line|].
    + rewrite Hd. split.
      * eexists. split; [reflexivity|]. simpl. apply lookup_insert_eq.
      * intros args s Hrun.
        destruct (finish w _ _) as [a s'|e s'|c s'] eqn:Hfin; try discriminate.
        injection Hrun as -> ->.
        match type of Hfin with
        | finish _ ?v ?s1 = _ => assert (Hk := keeps_finish w v s1)
        end.
        rewrite Hfin in Hk. simpl in Hk. rewrite lookup_insert_eq in Hk.
        apply finish_version in Hfin. injection Hfin as Hv.
        split; [congruence | assumption].
    + rewrite Hd. eexists. reflexivity.
  - rewrite Hd. eexists. reflexivity.
Qed.

Lemma version_derivation_witness :
  sdist_files init_plain !! "fiona/__init__.py" = Some init_plain
  /\ (exists s,
         (configure_logging sdist_world ;;; discover_version)
           (initial (sdist_files init_plain) ∅)
         = Ok (Some "1.4.8") s
         /\ files s !! "VERSION.txt" = Some "1.4.8")
  /\ (forall args s,
         run sdist_world (sdist_files init_plain) ∅ = SetupCalled args s ->
         sa_version args = "1.4.8" /\ files s !! "VERSION.txt" = Some "1.4.8").
Proof.
  split; [reflexivity|].
  exact (version_derivation sdist_world (sdist_files init_plain) ∅ init_plain
           eq_refl).
Defined.

Example run_sdist_plain :
  exists args s,
    run sdist_world (sdist_files init_plain) ∅ = SetupCalled args s
    /\ sa_version args = "1.4.8".
Proof. vm_compute. eexists _, _. split; reflexivity. Qed.

Example run_without_version :
  exists s,
    run sdist_world (sdist_files "__all__ = []") ∅ = Traceback name_error s.
Proof. vm_compute. eexists. reflexivity. Qed.

Example run_version_without_eq :
  exists s,
    run sdist_world (sdist_files "# see __version__ below") ∅
    = Traceback index_error s.
Proof. vm_compute. eexists. reflexivity. Qed.

(** C10, as worded, fails: on a version line with a second [=], the
    script takes the text up to that second [=], not all the text
    after the first. *)
Lemma version_after_first_eq_counterexample :
  ~ version_is_text_after_first_eq.
Proof.
  intros H.
  assert (Hrun : exists args s,
             run sdist_world (sdist_files init_two_eq) ∅ = SetupCalled args s
             /\ sa_version args = "1.4.8'  # was version").
  { vm_compute. eexists _, _. split; reflexivity. }
  destruct Hrun as (args & s & Hrun & Hv).
  specialize (H sdist_world (sdist_files init_two_eq) ∅ init_two_eq
                version_line_two_eq args s eq_refl eq_refl Hrun).
  rewrite Hv in H. vm_compute in H. discriminate H.
Qed.

(** ** Invariants, step by step *)

Lemma maintains_ret P {A} (a : A) : maintains P (ret a).
Proof. intros s Hs. exact Hs. Qed.

Lemma maintains_raise P {A} (e : exn) : maintains P (@raise A e).
Proof. intros s Hs. exact Hs. Qed.

Lemma maintains_sys_exit P {A} (c : Z) : maintains P (@sys_exit A c).
Proof. intros s Hs. exact Hs. Qed.

Lemma maintains_get P : maintains P get.
Proof. intros s Hs. exact Hs. Qed.

Lemma maintains_bind P {A B} (m : M A) (k : A -> M B) :
  maintains P m -> (forall a, maintains P (k a)) -> maintains P (bind m k).
Proof.
  intros Hm Hk s Hs. unfold bind. specialize (Hm s Hs).
  destruct (m s) as [a s'|e s'|c s']; simpl in *; [|assumption..].
  by apply Hk.
Qed.

Lemma maintains_try_except P {A} (body : M A) catches handler :
  maintains P body -> (forall e, maintains P (handler e)) ->
  maintains P (try_except body catches handler).
Proof.
  intros Hb Hh s Hs. unfold try_except. specialize (Hb s Hs).
  destruct (body s) as [a s'|e s'|c s']; simpl in *; [assumption| |assumption].
  destruct (catches e); simpl; [|assumption]. by apply Hh.
Qed.

Lemma maintains_when P (b : bool) (m : M unit) :
  (b = true -> maintains P m) -> maintains P (when b m).
Proof. destruct b; simpl; [auto|]. intros _. apply maintains_ret. Qed.

Lemma maintains_for_each P {A} (l : list A) (body : A -> M unit) :
  (forall x, maintains P (body x)) -> maintains P (for_each l body).
Proof.
  intros Hb. induction l as [|x l IH]; simpl.
  - apply maintains_ret.
  - apply maintains_bind; auto.
Qed.

Lemma maintains_modify P (f : State -> State) :
  (forall s, P s -> P (f s)) -> maintains P (modify f).
Proof. intros Hf s Hs. simpl. by apply Hf. Qed.

Lemma maintains_read_file P (p : string) : maintains P (read_file p).
Proof. intros s Hs. unfold read_file. by destruct (files s !! p). Qed.

Lemma maintains_read_text P (p : string) : maintains P (read_text p).
Proof.
  unfold read_text.
  apply maintains_bind; [apply maintains_read_file | intros t; apply maintains_ret].
Qed.

Lemma maintains_load_name P (n : string) (v : option string) :
  maintains P (load_name n v).
Proof. destruct v; [apply maintains_ret | apply maintains_raise]. Qed.

Lemma maintains_version_loop P (ls : list string) (v : option string) :
  maintains P (version_loop ls v).
Proof.
  intros s Hs. rewrite version_loop_spec.
  by destruct (forallb has_eq _).
Qed.

(** An invariant of the whole script follows from its stability
    under the few changes the script makes: writing one of its two
    files, staging one of its two directories (only with
    PACKAGE_DATA), logging a record the logger lets through,
    assigning the option lists, and lowering the logger level (only
    with [-W all]). *)
Section ScriptInvariant.

Variable w : World.
Variable P : State -> Prop.

Hypothesis stable_file :
  forall p v s, written_file p -> P s -> P (set_files (<[p := v]> (files s)) s).
Hypothesis stable_staging :
  truthy (environ w !! "PACKAGE_DATA") = true ->
  forall p s, staged_dir p -> P s ->
    P (set_dirs (delete p (dirs s)) s)
    /\ forall t, P (set_dirs (<[p := t]> (dirs s)) s).
Hypothesis stable_log :
  forall r s, log_level s <= fst r -> P s -> P (add_record r s).
Hypothesis stable_options :
  forall o s, P s -> P (set_options o s).
Hypothesis stable_level :
  "all" ∈ warnoptions w -> forall s, P s -> P (set_log_level DEBUG s).

Lemma maintains_open_w (p : string) : written_file p -> maintains P (open_w p).
Proof. intros Hp. apply maintains_modify. intros s. by apply stable_file. Qed.

Lemma maintains_append_file (p text : string) :
  written_file p -> maintains P (append_file p text).
Proof. intros Hp. apply maintains_modify. intros s. by apply stable_file. Qed.

Lemma maintains_subprocess_call (prog arg out : string) :
  written_file out -> maintains P (subprocess_call w prog arg out).
Proof.
  intros Hp. unfold subprocess_call.
  destruct (call w prog arg); [apply maintains_raise | by apply maintains_append_file].
Qed.

Lemma maintains_log_call (level : nat) (msg : string) :
  maintains P (log_call level msg).
Proof.
  apply maintains_modify. intros s Hs.
  destruct (Nat.leb_spec (log_level s) level) as [Hle|_]; [|exact Hs].
  by apply stable_log.
Qed.

Lemma maintains_upd_options (f : Options -> Options) : maintains P (upd_options f).
Proof. apply maintains_modify. intros s. apply stable_options. Qed.

Lemma maintains_stage_data (src dst : string) :
  truthy (environ w !! "PACKAGE_DATA") = true ->
  staged_dir dst -> maintains P (stage_data src dst).
Proof.
  intros Hpd Hdst. unfold stage_data.
  apply maintains_bind; [apply maintains_try_except|].
  - intros s Hs. unfold rmtree. destruct (dirs s !! dst); [|exact Hs].
    simpl. by apply stable_staging.
  - intros e. apply maintains_ret.
  - intros _ s Hs. unfold copytree.
    destruct (dirs s !! src); [|exact Hs].
    destruct (path_exists s dst); [exact Hs|].
    simpl. by apply stable_staging.
Qed.

Lemma maintains_parse_cflags (cflags : string) : maintains P (parse_cflags cflags).
Proof.
  apply maintains_for_each. intros x. apply maintains_when. intros _.
  apply maintains_upd_options.
Qed.

Lemma maintains_parse_libs (libs : string) : maintains P (parse_libs libs).
Proof.
  apply maintains_for_each. intros x.
  destruct (startswith "-L" x); [apply maintains_upd_options|].
  destruct (startswith "-l" x); apply maintains_upd_options.
Qed.

Lemma maintains_gdal_block : maintains P (gdal_block w).
Proof.
  unfold gdal_block. apply maintains_try_except;
    [|intros e; apply maintains_log_call].
  unfold gdal_body.
  apply maintains_bind; [apply maintains_open_w; by right|intros _].
  do 3 (apply maintains_bind;
        [apply maintains_subprocess_call; by right|intros _]).
  apply maintains_bind; [apply maintains_read_file|intros text].
  destruct (read_config text) as [[cflags libs] datadir].
  apply maintains_bind; [apply maintains_parse_cflags|intros _].
  apply maintains_bind; [apply maintains_parse_libs|intros _].
  apply maintains_when. intros Hpd. apply maintains_stage_data; [exact Hpd|by left].
Qed.

Lemma maintains_proj_block : maintains P (proj_block w).
Proof.
  unfold proj_block. apply maintains_when. intros Hpd.
  apply maintains_bind; [apply maintains_get|intros s0].
  apply maintains_when. intros _.
  apply maintains_stage_data; [exact Hpd|by right].
Qed.

Lemma maintains_select_ext_modules : maintains P (select_ext_modules w).
Proof.
  unfold select_ext_modules.
  apply maintains_bind; [apply maintains_get|intros s0].
  destruct (path_exists s0 "MANIFEST.in"); [|apply maintains_ret].
  apply maintains_bind; [apply maintains_log_call|intros _].
  destruct (cythonize w); [apply maintains_ret|].
  apply maintains_bind; [apply maintains_log_call|intros _].
  apply maintains_sys_exit.
Qed.

Lemma maintains_configure_logging : maintains P (configure_logging w).
Proof.
  unfold configure_logging. apply maintains_when. intros Hall.
  apply bool_decide_eq_true in Hall.
  apply maintains_modify. by apply stable_level.
Qed.

Lemma maintains_discover_version : maintains P discover_version.
Proof.
  unfold discover_version, parse_version, write_version.
  apply maintains_bind;
    [apply maintains_bind;
       [apply maintains_read_file|intros text; apply maintains_version_loop]|].
  intros version.
  apply maintains_bind; [|intros _; apply maintains_ret].
  apply maintains_bind; [apply maintains_open_w; by left|intros _].
  apply maintains_bind; [apply maintains_load_name|intros v].
  apply maintains_append_file. by left.
Qed.

Lemma maintains_finish (version : option string) : maintains P (finish w version).
Proof.
  unfold finish.
  do 3 (apply maintains_bind; [apply maintains_read_text|intros ?]).
  apply maintains_bind;
    [apply maintains_modify; intros s; apply stable_options|intros _].
  apply maintains_bind; [apply maintains_gdal_block|intros _].
  apply maintains_bind; [apply maintains_proj_block|intros _].
  apply maintains_bind; [apply maintains_select_ext_modules|intros exts].
  apply maintains_bind; [apply maintains_load_name|intros v].
  apply maintains_ret.
Qed.

Lemma maintains_script : maintains P (script w).
Proof.
  unfold script.
  apply maintains_bind; [apply maintains_configure_logging|intros _].
  apply maintains_bind; [apply maintains_discover_version|intros version].
  apply maintains_finish.
Qed.

End ScriptInvariant.

Lemma final_state_run (w : World) (f : gmap string string) (d : gmap string tree) :
  final_state (run w f d) = state_of (script w (initial f d)).
Proof. unfold run. by destruct (script w (initial f d)). Qed.

Lemma ending_run (w : World) (f : gmap string string) (d : gmap string tree) :
  ending (run w f d) = ending_of (script w (initial f d)).
Proof. unfold run. by destruct (script w (initial f d)). Qed.

Lemma maintains_Ok P {A} (m : M A) (s s' : State) (a : A) :
  maintains P m -> m s = Ok a s' -> P s -> P s'.
Proof. intros Hm Hr Hs. specialize (Hm s Hs). by rewrite Hr in Hm. Qed.

(** ** The gdal-config block *)

Lemma rmtree_caught (dst : string) (s : State) :
  exists s', same_but_dirs s s'
    /\ try_except (rmtree dst) is_OSError (fun _ => ret tt) s = Ok tt s'.
Proof.
  unfold try_except, rmtree.
  destruct (dirs s !! dst); simpl; eexists; (split; [|reflexivity]);
    repeat split.
Qed.

Lemma copytree_result (src dst : string) (s : State) :
  exists s', same_but_dirs s s'
    /\ (copytree src dst s = Ok tt s' \/ exists e, copytree src dst s = Raise e s').
Proof.
  unfold copytree.
  destruct (dirs s !! src); [destruct (path_exists s dst)|];
    eexists; (split; [|eauto]); repeat split.
Qed.

(** Staging ends normally or with an exception, never by leaving, and
    touches the directories only. *)
Lemma stage_data_result (src dst : string) (s : State) :
  exists s', same_but_dirs s s'
    /\ (stage_data src dst s = Ok tt s'
        \/ exists e, stage_data src dst s = Raise e s').
Proof.
  unfold stage_data, bind.
  destruct (rmtree_caught dst s) as (s1 & (Hf1 & Hl1 & Hr1 & Ho1) & ->).
  destruct (copytree_result src dst s1) as (s2 & (Hf2 & Hl2 & Hr2 & Ho2) & H).
  exists s2. split; [|exact H].
  repeat split; congruence.
Qed.

Lemma set_files_twice (f f' : gmap string string) (s : State) :
  set_files f' (set_files f s) = set_files f' s.
Proof. reflexivity. Qed.

(** The body of the [try], call by call. *)
Lemma gdal_body_cases (w : World) (s : State) :
  let gc := "gdal-config.txt" in
  gdal_body w s =
  match call w (gdal_config w) "--cflags" with
  | inl e => Raise e (set_files (<[gc := ""]> (files s)) s)
  | inr t1 =>
      match call w (gdal_config w) "--libs" with
      | inl e => Raise e (set_files (<[gc := t1]> (files s)) s)
      | inr t2 =>
          match call w (gdal_config w) "--datadir" with
          | inl e => Raise e (set_files (<[gc := t1 ++ t2]> (files s)) s)
          | inr t3 =>
              after_calls w ((t1 ++ t2) ++ t3)
                (set_files (<[gc := (t1 ++ t2) ++ t3]> (files s)) s)
          end
      end
  end.
Proof.
  unfold gdal_body, after_calls, bind, open_w, subprocess_call, append_file,
    modify, raise, read_file.
  simpl.
  destruct (call w (gdal_config w) "--cflags") as [e|t1]; simpl; [reflexivity|].
  rewrite lookup_insert_eq, insert_insert_eq, set_files_twice. simpl.
  change ("" +:+ t1) with t1.
  destruct (call w (gdal_config w) "--libs") as [e|t2]; simpl; [reflexivity|].
  rewrite lookup_insert_eq, insert_insert_eq, set_files_twice. simpl.
  destruct (call w (gdal_config w) "--datadir") as [e|t3]; simpl; [reflexivity|].
  rewrite !lookup_insert_eq, insert_insert_eq, set_files_twice. simpl.
  destruct (read_config _) as [[cflags libs] datadir]. reflexivity.
Qed.

(** Once the output is read back, the lists are gathered whole; only
    the staging of the data can still fail. *)
Lemma after_calls_result (w : World) (text : string) (s : State) :
  exists s',
    files s' = files s /\ log_level s' = log_level s
    /\ log_records s' = log_records s
    /\ options s'
       = gathered (options s) (fst (fst (read_config text)))
           (snd (fst (read_config text)))
    /\ (after_calls w text s = Ok tt s'
        \/ exists e, after_calls w text s = Raise e s').
Proof.
  unfold after_calls.
  destruct (read_config text) as [[cflags libs] datadir]. simpl.
  assert (Hp := parse_both cflags libs s).
  unfold bind in *.
  destruct (parse_cflags cflags s) as [[] s1|e s1|c s1]; try discriminate.
  rewrite Hp. unfold when.
  destruct (truthy _).
  - destruct (stage_data_result datadir "fiona/gdal_data"
                (set_options (gathered (options s) cflags libs) s))
      as (s' & (Hf & Hl & Hr & Ho) & Hres).
    exists s'. split_and!; assumption.
  - exists (set_options (gathered (options s) cflags libs) s).
    split_and!; [reflexivity..|]. left. reflexivity.
Qed.

(** The body of the [try] never leaves the script; when it raises,
    the logger level is untouched and the lists are as they were or
    gathered whole. *)
Lemma gdal_body_result (w : World) (s : State) :
  match gdal_body w s with
  | Ok _ s' => log_level s' = log_level s
  | Raise e s' =>
      log_level s' = log_level s
      /\ log_records s' = log_records s
      /\ (options s' = options s
          \/ exists cflags libs, options s' = gathered (options s) cflags libs)
  | Exit _ _ => False
  end.
Proof.
  rewrite gdal_body_cases. simpl.
  destruct (call w (gdal_config w) "--cflags") as [e|t1]; [auto|].
  destruct (call w (gdal_config w) "--libs") as [e|t2]; [auto|].
  destruct (call w (gdal_config w) "--datadir") as [e|t3]; [auto|].
  destruct (after_calls_result w ((t1 ++ t2) ++ t3)
              (set_files (<["gdal-config.txt" := (t1 ++ t2) ++ t3]> (files s)) s))
    as (s' & Hf & Hl & Hr & Ho & [Hok | [e Hraise]]).
  - rewrite Hok. assumption.
  - rewrite Hraise. split_and!; [assumption..|]. right. eauto.
Qed.

(** The block of lines 56-88 always ends normally. *)
Lemma gdal_block_total (w : World) (s : State) :
  exists s', gdal_block w s = Ok tt s'.
Proof.
  assert (H := gdal_body_result w s).
  unfold gdal_block, try_except.
  destruct (gdal_body w s) as [[] s'|e s'|c s']; [eauto| |contradiction].
  simpl. eexists. reflexivity.
Qed.

(** When the three calls answer, the block ends with the lists
    gathered from the first two lines read back. *)
Lemma gdal_block_gathers (w : World) (s : State) (t1 t2 t3 : string) :
  call w (gdal_config w) "--cflags" = inr t1 ->
  call w (gdal_config w) "--libs" = inr t2 ->
  call w (gdal_config w) "--datadir" = inr t3 ->
  exists s',
    gdal_block w s = Ok tt s'
    /\ options s'
       = gathered (options s) (fst (fst (read_config ((t1 ++ t2) ++ t3))))
           (snd (fst (read_config ((t1 ++ t2) ++ t3)))).
Proof.
  intros H1 H2 H3. unfold gdal_block, try_except.
  rewrite gdal_body_cases. cbv zeta. rewrite H1, H2, H3.
  destruct (after_calls_result w ((t1 ++ t2) ++ t3)
              (set_files (<["gdal-config.txt" := (t1 ++ t2) ++ t3]> (files s)) s))
    as (s' & _ & _ & _ & Ho & [-> | [e ->]]).
  - exists s'. split; [reflexivity | exact Ho].
  - simpl. unfold log_call, modify. eexists. split; [reflexivity|].
    destruct (Nat.leb _ _); exact Ho.
Qed.

(** ** Reading the output back *)

Lemma append_cons (c : ascii) (l r : string) :
  String c l ++ r = String c (l ++ r).
Proof. reflexivity. Qed.

Lemma append_nil_l (r : string) : "" ++ r = r.
Proof. reflexivity. Qed.

Lemma append_nil_r (l : string) : l ++ "" = l.
Proof.
  induction l as [|c l IH]; [reflexivity|]. by rewrite append_cons, IH.
Qed.

Lemma append_assoc (a b c : string) : (a ++ b) ++ c = a ++ (b ++ c).
Proof.
  induction a as [|x a IH]; [reflexivity|]. by rewrite !append_cons, IH.
Qed.

Lemma readline_printed (l rest : string) :
  no_linebreak l = true -> readline (printed l ++ rest) = (printed l, rest).
Proof.
  unfold printed. induction l as [|c l IH]; intros Hl.
  - reflexivity.
  - simpl in Hl. apply andb_prop in Hl as [Hc Hl].
    apply andb_prop in Hc as [Hlf Hcr].
    apply negb_true_iff in Hlf, Hcr.
    rewrite !append_cons. cbn [readline]. rewrite Hlf, Hcr.
    rewrite (IH Hl). reflexivity.
Qed.

Lemma rstrip_by_snoc (p : ascii -> bool) (l : string) (c : ascii) :
  p c = true -> rstrip_by p (l ++ String c "") = rstrip_by p l.
Proof.
  intros Hc. induction l as [|x l IH].
  - rewrite append_nil_l. simpl. by rewrite Hc.
  - rewrite append_cons. cbn [rstrip_by]. by rewrite IH.
Qed.

Lemma strip_printed (l : string) : strip (printed l) = strip l.
Proof.
  unfold strip, strip_by, printed. by rewrite rstrip_by_snoc.
Qed.

(** Lines are told apart by their place in the file, not by the call
    that wrote them. *)
Lemma read_config_lines (l1 l2 l3 : string) :
  no_linebreak l1 = true -> no_linebreak l2 = true -> no_linebreak l3 = true ->
  read_config ((printed l1 ++ printed l2) ++ printed l3)
  = (strip l1, strip l2, strip l3)
  /\ read_config (("" ++ printed l2) ++ printed l3) = (strip l2, strip l3, "").
Proof.
  intros H1 H2 H3. unfold read_config. split.
  - rewrite append_assoc, (readline_printed l1) by exact H1.
    rewrite (readline_printed l2) by exact H2.
    rewrite <- (append_nil_r (printed l3)), (readline_printed l3) by exact H3.
    by rewrite !strip_printed.
  - rewrite append_nil_l, (readline_printed l2) by exact H2.
    rewrite <- (append_nil_r (printed l3)), (readline_printed l3) by exact H3.
    by rewrite !strip_printed.
Qed.

(** The first two lines read back, whatever follows them. *)
Lemma read_config_first_two (l1 l2 rest : string) :
  no_linebreak l1 = true -> no_linebreak l2 = true ->
  fst (read_config ((printed l1 ++ printed l2) ++ rest)) = (strip l1, strip l2).
Proof.
  intros H1 H2. unfold read_config.
  rewrite append_assoc, (readline_printed l1) by exact H1.
  rewrite (readline_printed l2) by exact H2.
  destruct (readline rest) as [l3 r3]. by rewrite !strip_printed.
Qed.

(** ** The tokens of a printed line *)

(** Whitespace around a text adds no token. *)
Lemma split_ws_lstrip (x : string) : split_ws (lstrip_by isspace x) = split_ws x.
Proof.
  induction x as [|c r IH]; [reflexivity|].
  cbn [lstrip_by]. destruct (isspace c) eqn:Hc; [|reflexivity].
  rewrite IH. cbn [split_ws]. by rewrite Hc.
Qed.

Lemma rstrip_by_head (p : ascii -> bool) (c : ascii) (r : string) :
  rstrip_by p (String c r) = ""
  \/ exists r', rstrip_by p (String c r) = String c r'.
Proof.
  cbn [rstrip_by]. destruct (p c && is_empty (rstrip_by p r)); eauto.
Qed.

Lemma split_ws_rstrip (x : string) : split_ws (rstrip_by isspace x) = split_ws x.
Proof.
  induction x as [|c r IH]; [reflexivity|].
  cbn [rstrip_by].
  destruct (isspace c) eqn:Hc.
  - cbn [andb]. change (split_ws (String c r)) with
      (if isspace c then split_ws r else
         match r with
         | "" => [String c ""]
         | String c' _ =>
             if isspace c' then String c "" :: split_ws r
             else match split_ws r with
                  | h :: t => String c h :: t
                  | [] => [String c ""]
                  end
         end).
    rewrite Hc.
    destruct (rstrip_by isspace r) as [|c' r'] eqn:Hr.
    + exact IH.
    + cbn [is_empty]. rewrite <- IH. cbn [split_ws]. by rewrite Hc.
  - cbn [andb].
    destruct r as [|c' r1]; [reflexivity|].
    destruct (rstrip_by_head isspace c' r1) as [He | [r' He]].
    + rewrite He in *.
      assert (Hsp : isspace c' = true).
      { cbn [rstrip_by] in He.
        destruct (isspace c'); [reflexivity|discriminate]. }
      cbn [split_ws] in *. rewrite Hc, Hsp in *. rewrite <- IH. reflexivity.
    + rewrite He in *. cbn [split_ws] in *. rewrite Hc.
      destruct (isspace c'); rewrite IH; reflexivity.
Qed.

Lemma split_ws_strip (x : string) : split_ws (strip x) = split_ws x.
Proof.
  unfold strip, strip_by. by rewrite split_ws_lstrip, split_ws_rstrip.
Qed.

(** The lists gathered hang on the tokens only. *)
Lemma gathered_strip (o : Options) (cflags libs : string) :
  gathered o (strip cflags) (strip libs) = gathered o cflags libs.
Proof.
  unfold gathered, spec_include_dirs, spec_library_dirs, spec_libraries,
    spec_extra_link_args.
  by rewrite !split_ws_strip.
Qed.

(** C9, as amended. Compiler-option classification, when the
    [--cflags] call and the [--libs] call print exactly one line each
    and the [--datadir] call answers: of the whitespace-separated
    tokens of the
    [--cflags] output, those that start with [-I] add their
    remainder, split on the colon, to [include_dirs] and the others
    are dropped; of the tokens of the [--libs] output, those that
    start with [-L] add their remainder, split on the colon, to
    [library_dirs], those that start with [-l] add their remainder to
    [libraries], and every other token is added as it is to
    [extra_link_args]; the order of the tokens is kept, and the block
    of lines 56-88 ends with the lists so gathered. *)
Theorem option_classification (w : World) (s : State) (l1 l2 t3 : string) :
  call w (gdal_config w) "--cflags" = inr (printed l1) ->
  call w (gdal_config w) "--libs" = inr (printed l2) ->
  call w (gdal_config w) "--datadir" = inr t3 ->
  no_linebreak l1 = true -> no_linebreak l2 = true ->
  let cflags := printed l1 in
  let libs := printed l2 in
  exists s',
    gdal_block w s = Ok tt s'
    /\ options s'
       = {| include_dirs :=
              include_dirs (options s)
              ++ flat_map (fun t => split_sep ":"%char (slice_from 2 t))
                   (List.filter (startswith "-I") (split_ws cflags));
            library_dirs :=
              library_dirs (options s)
              ++ flat_map (fun t => split_sep ":"%char (slice_from 2 t))
                   (List.filter (startswith "-L") (split_ws libs));
            libraries :=
              libraries (options s)
              ++ map (slice_from 2)
                   (List.filter (startswith "-l") (split_ws libs));
            extra_link_args :=
              extra_link_args (options s)
              ++ List.filter
                   (fun t => negb (startswith "-L" t) && negb (startswith "-l" t))
                   (split_ws libs) |}.
Proof.
  intros Hc1 Hc2 Hc3 H1 H2 cflags libs.
  destruct (gdal_block_gathers w s _ _ _ Hc1 Hc2 Hc3) as (s' & Hb & Ho).
  exists s'. split; [exact Hb|]. rewrite Ho.
  rewrite (read_config_first_two l1 l2 t3 H1 H2). cbn [fst snd].
  rewrite <- (strip_printed l1), <- (strip_printed l2), gathered_strip.
  reflexivity.
Qed.

Lemma option_classification_witness :
  call wheel_world (gdal_config wheel_world) "--cflags"
  = inr (printed "-I/usr/include/gdal")
  /\ no_linebreak "-I/usr/include/gdal" = true
  /\ exists s',
      gdal_block wheel_world (initial ∅ ∅) = Ok tt s'
      /\ options s'
         = {| include_dirs := ["/usr/include/gdal"]; library_dirs := ["/usr/lib"];
              libraries := ["gdal"]; extra_link_args := [] |}.
Proof.
  split; [reflexivity|]. split; [reflexivity|].
  exact (option_classification wheel_world (initial ∅ ∅)
           "-I/usr/include/gdal" "-L/usr/lib -lgdal" (printed "/usr/share/gdal")
           eq_refl eq_refl eq_refl eq_refl eq_refl).
Defined.

(** C9, as worded, fails: the lists are not gathered from the outputs
    of the calls, each for itself, but from the first and the second
    line of [gdal-config.txt], where the three outputs follow one
    another. On a machine whose [--cflags] call prints nothing, the
    [--libs] line is read as the cflags, and its [-L] and [-l] tokens
    are lost. *)
Lemma options_from_the_outputs_counterexample : ~ options_from_the_outputs.
Proof.
  intros H.
  destruct (H silent_world (initial ∅ ∅) _ _ _ eq_refl eq_refl eq_refl)
    as (s' & Hb & Ho).
  vm_compute in Hb. injection Hb as <-. vm_compute in Ho. discriminate.
Qed.

Example options_on_the_silent_machine :
  exists s',
    gdal_block silent_world (initial ∅ ∅) = Ok tt s'
    /\ options s'
       = {| include_dirs := []; library_dirs := []; libraries := [];
            extra_link_args := ["/usr/share/gdal"] |}
    /\ gathered empty_options "" (printed "-L/usr/lib -lgdal")
       = {| include_dirs := []; library_dirs := ["/usr/lib"];
            libraries := ["gdal"]; extra_link_args := [] |}.
Proof. vm_compute. eexists. split_and!; reflexivity. Qed.

(** C3. Whatever exception the discovery of options through
    gdal-config raises, it is caught and logged as a warning that
    carries its text, and the script goes on (the block ends normally)
    with the option lists as they stand: as they were before the block
    (empty, in the script) or gathered whole from the output. With or
    without an exception the block never ends the script. *)
Theorem gdal_failure_is_a_warning (w : World) (s : State) :
  log_level s <= WARNING ->
  match gdal_body w s with
  | Ok _ s' => gdal_block w s = Ok tt s'
  | Raise e s' =>
      gdal_block w s = Ok tt (add_record (gdal_warning e) s')
      /\ (options s' = options s
          \/ exists cflags libs, options s' = gathered (options s) cflags libs)
  | Exit _ _ => False
  end.
Proof.
  intros Hlevel.
  assert (H := gdal_body_result w s).
  unfold gdal_block, try_except.
  destruct (gdal_body w s) as [[] s'|e s'|c s']; [reflexivity| |assumption].
  destruct H as (Hl & _ & Ho). split; [|assumption].
  simpl. unfold log_call, modify. rewrite Hl.
  destruct (Nat.leb_spec (log_level s) WARNING) as [_|Hgt]; [reflexivity|lia].
Qed.

Lemma gdal_failure_is_a_warning_witness :
  log_level (initial ∅ ∅) <= WARNING
  /\ exists s',
      gdal_block wheel_world (initial ∅ ∅)
      = Ok tt (add_record
                 (gdal_warning (Exn OSError "No such file or directory: /usr/share/gdal"))
                 s')
      /\ options s'
         = {| include_dirs := ["/usr/include/gdal"]; library_dirs := ["/usr/lib"];
              libraries := ["gdal"]; extra_link_args := [] |}.
Proof.
  split; [reflexivity|].
  assert (H := gdal_failure_is_a_warning wheel_world (initial ∅ ∅)
                 (le_n WARNING)).
  destruct (gdal_body wheel_world (initial ∅ ∅)) as [[] s'|e s'|c s'] eqn:Hbody;
    vm_compute in Hbody; [discriminate Hbody| |discriminate Hbody].
  injection Hbody as <- <-.
  destruct H as [H _]. eexists. split; [exact H|reflexivity].
Defined.

Example gdal_block_without_gdal_config :
  exists s',
    gdal_block sdist_world (initial ∅ ∅) = Ok tt s'
    /\ options s' = empty_options
    /\ log_records s'
       = [(WARNING, "Failed to get options via gdal-config: No such file or directory")].
Proof. vm_compute. eexists. repeat split. Qed.

(** ** Staging a directory *)

(** The removal of what was staged before never fails the script
    (lines 81-84 and 94-97). *)
Lemma rmtree_then_copytree (src dst : string) (s : State) :
  stage_data src dst s = copytree src dst (set_dirs (delete dst (dirs s)) s).
Proof.
  unfold stage_data, bind, try_except, rmtree.
  destruct (dirs s !! dst) eqn:Hd; simpl; [reflexivity|].
  by rewrite delete_id, set_dirs_same by exact Hd.
Qed.

(** What cannot be staged. *)
Lemma stage_data_fails (src dst : string) (s : State) :
  src = dst \/ dirs s !! src = None \/ is_Some (files s !! dst) ->
  exists e, exn_cls e = OSError
    /\ stage_data src dst s = Raise e (set_dirs (delete dst (dirs s)) s).
Proof.
  rewrite rmtree_then_copytree. unfold copytree, path_exists. simpl.
  rewrite lookup_delete_eq.
  intros [-> | [Hsrc | [v Hdst]]].
  - rewrite lookup_delete_eq. eexists. split; [|reflexivity]. reflexivity.
  - destruct (decide (dst = src)) as [->|Hne].
    + rewrite lookup_delete_eq. eexists. split; [|reflexivity]. reflexivity.
    + rewrite lookup_delete_ne by exact Hne. rewrite Hsrc.
      eexists. split; [|reflexivity]. reflexivity.
  - destruct (delete dst (dirs s) !! src).
    + rewrite Hdst. eexists. split; [|reflexivity]. reflexivity.
    + eexists. split; [|reflexivity]. reflexivity.
Qed.


(** ** Paths that are apart *)







(** ** The staging in the gdal-config block *)


(** ** Staging of the runtime support data *)




Example gdal_data_directory_missing :
  exists e s',
    gdal_block wheel_world
      (initial ∅ {["fiona/gdal_data" := staged_tree]}) = Ok tt s'
    /\ dirs s' !! "fiona/gdal_data" = None
    /\ exn_cls e = OSError
    /\ log_records s' = [gdal_warning e].
Proof. vm_compute. eexists (Exn OSError _), _. split_and!; reflexivity. Qed.

Example proj_data_staged :
  let d : gmap string tree := {["/opt/proj" := [("epsg", "...")]]} in
  let w := {| environ := {["PACKAGE_DATA" := "1"; "PROJ_LIB" := "/opt/proj"]};
              warnoptions := []; version_info := (3, 8)%nat;
              call := no_gdal_config; cythonize := None |} in
  exists s', proj_block w (initial ∅ d) = Ok tt s'
             /\ dirs s' !! "fiona/proj_data" = Some [("epsg", "...")].
Proof. vm_compute. eexists. split; reflexivity. Qed.

(** ** Selection of the extension modules *)

Lemma log_call_last (level : nat) (msg : string) (s : State) :
  log_level s <= level ->
  exists s', log_call level msg s = Ok tt s'
             /\ last (log_records s') = Some (level, msg).
Proof.
  intros Hle. unfold log_call, modify.
  destruct (Nat.leb_spec (log_level s) level) as [_|Hgt]; [|lia].
  eexists. split; [reflexivity|]. simpl. apply last_snoc.
Qed.

(** C8. Which extension modules are built is decided by whether
    [MANIFEST.in] exists. If it does and [cythonize] was imported, the
    modules are what [cythonize] makes of the five extensions
    [fiona._geometry], [fiona._transform], [fiona._drivers],
    [fiona._err] and [fiona.ogrext], each with its [.pyx] source. If
    it does and [cythonize] was not imported, a critical message is
    logged last and the script leaves with exit status 1, whatever
    would follow. If it does not, the modules are the same five
    extensions with their generated [.c] sources ([.cpp] for
    [fiona._transform]), [cythonize] playing no part. *)
Theorem extension_selection (w : World) (s : State) :
  log_level s <= CRITICAL ->
  (path_exists s "MANIFEST.in" = true ->
   forall cy, cythonize w = Some cy ->
     exists s', select_ext_modules w s = Ok (cy (pyx_extensions (options s))) s')
  /\ (path_exists s "MANIFEST.in" = true -> cythonize w = None ->
      exists s', select_ext_modules w s = Exit 1 s'
                 /\ last (log_records s') = Some (CRITICAL, cython_missing)
                 /\ forall B (k : list Extension -> M B),
                      bind (select_ext_modules w) k s = Exit 1 s')
  /\ (path_exists s "MANIFEST.in" = false ->
      select_ext_modules w s = Ok (c_extensions (options s)) s)
  /\ (forall o,
        map (fun e => (ext_name e, ext_sources e, ext_options e)) (pyx_extensions o)
        = [ ("fiona._geometry", ["fiona/_geometry.pyx"], o);
            ("fiona._transform", ["fiona/_transform.pyx"], o);
            ("fiona._drivers", ["fiona/_drivers.pyx"], o);
            ("fiona._err", ["fiona/_err.pyx"], o);
            ("fiona.ogrext", ["fiona/ogrext.pyx"], o) ])
  /\ (forall o,
        map (fun e => (ext_name e, ext_sources e, ext_options e)) (c_extensions o)
        = [ ("fiona._transform", ["fiona/_transform.cpp"], o);
            ("fiona._geometry", ["fiona/_geometry.c"], o);
            ("fiona._drivers", ["fiona/_drivers.c"], o);
            ("fiona._err", ["fiona/_err.c"], o);
            ("fiona.ogrext", ["fiona/ogrext.c"], o) ])
  /\ (forall o, map ext_name (c_extensions o) ≡ₚ map ext_name (pyx_extensions o)).
Proof.
  intros Hlevel. split_and!.
  - intros Hm cy Hcy. unfold select_ext_modules, bind, get. rewrite Hm, Hcy.
    unfold log_call, modify. eexists. reflexivity.
  - intros Hm Hcy.
    assert (Hsel : exists s', select_ext_modules w s = Exit 1 s'
                     /\ last (log_records s') = Some (CRITICAL, cython_missing)).
    { unfold select_ext_modules, bind, get. rewrite Hm, Hcy.
      destruct (log_call INFO _ s) as [[] s1|e s1|c s1] eqn:Hinfo;
        unfold log_call, modify in Hinfo; try discriminate.
      assert (Hl1 : log_level s1 <= CRITICAL).
      { injection Hinfo as <-. destruct (Nat.leb _ _); simpl; assumption. }
      destruct (log_call_last CRITICAL cython_missing s1 Hl1) as (s2 & -> & Hlast).
      exists s2. split; [reflexivity | assumption]. }
    destruct Hsel as (s' & Hsel & Hlast). exists s'.
    split_and!; [assumption..|].
    intros B k. unfold bind. rewrite Hsel. reflexivity.
  - intros Hm. unfold select_ext_modules, bind, get. rewrite Hm. reflexivity.
  - reflexivity.
  - reflexivity.
  - intros o. simpl. apply Permutation_swap.
Qed.

Lemma extension_selection_witness :
  log_level (initial checkout_files ∅) <= CRITICAL
  /\ path_exists (initial checkout_files ∅) "MANIFEST.in" = true
  /\ cythonize sdist_world = None
  /\ exists s',
      select_ext_modules sdist_world (initial checkout_files ∅) = Exit 1 s'
      /\ last (log_records s') = Some (CRITICAL, cython_missing).
Proof.
  assert (Hlevel : log_level (initial checkout_files ∅) <= CRITICAL).
  { vm_compute. lia. }
  destruct (extension_selection sdist_world (initial checkout_files ∅) Hlevel)
    as (_ & Hexit & _).
  destruct (Hexit eq_refl eq_refl) as (s' & Hsel & Hlast & _).
  split_and!; [exact Hlevel | reflexivity | reflexivity|].
  exists s'. split; assumption.
Defined.

Example run_checkout_without_cython :
  exists s, run sdist_world checkout_files ∅ = Exited 1 s.
Proof. vm_compute. eexists. reflexivity. Qed.

Example run_sdist_extensions :
  exists args s,
    run sdist_world (sdist_files init_plain) ∅ = SetupCalled args s
    /\ sa_ext_modules args = c_extensions empty_options.
Proof. vm_compute. eexists _, _. split; reflexivity. Qed.



(** * Further properties of the build script *)

(** ** What the script leaves alone *)

Lemma script_keeps_file (w : World) (f : gmap string string)
    (d : gmap string tree) (p : string) :
  p <> "VERSION.txt" -> p <> "gdal-config.txt" ->
  files (final_state (run w f d)) !! p = f !! p.
Proof.
  intros Hv Hg. rewrite final_state_run.
  apply (maintains_script w (fun s => files s !! p = f !! p));
    try (intros; assumption); try reflexivity.
  - intros q v s [-> | ->] Hs; simpl; by rewrite lookup_insert_ne.
  - intros _ q s _ Hs. split; [exact Hs | intros t; exact Hs].
Qed.

(** X1. The script never writes to what it reads: however the run
    ends, [fiona/__init__.py], [README.rst], [CREDITS.txt],
    [CHANGES.txt] and [MANIFEST.in] are what they were, there or
    not. *)
Theorem script_leaves_its_inputs (w : World) (f : gmap string string)
    (d : gmap string tree) :
  Forall (fun p => files (final_state (run w f d)) !! p = f !! p) inputs.
Proof.
  unfold inputs.
  repeat (apply List.Forall_cons; [apply script_keeps_file; discriminate|]).
  apply List.Forall_nil.
Qed.

(** X15. In a run that neither stages data (PACKAGE_DATA unset or
    empty) nor calls [cythonize], the script, up to the call of
    [setup], changes no regular file other than [VERSION.txt] and
    [gdal-config.txt]. *)
Theorem script_leaves_other_files (w : World) (f : gmap string string)
    (d : gmap string tree) (p : string) :
  truthy (environ w !! "PACKAGE_DATA") = false ->
  no_cythonize_call w f d = true ->
  p <> "VERSION.txt" -> p <> "gdal-config.txt" ->
  files (final_state (run w f d)) !! p = f !! p.
Proof. intros _ _. apply script_keeps_file. Qed.

Lemma script_leaves_other_files_witness :
  truthy (environ sdist_world !! "PACKAGE_DATA") = false
  /\ no_cythonize_call sdist_world (sdist_files init_plain) ∅ = true
  /\ files (final_state (run sdist_world (sdist_files init_plain) ∅))
     !! "README.rst" = Some "Fiona"
  /\ files (final_state (run sdist_world (sdist_files init_plain) ∅))
     !! "setup.cfg" = None.
Proof.
  split; [reflexivity|]. split; [reflexivity|]. split.
  - exact (script_leaves_other_files sdist_world (sdist_files init_plain)
             ∅ "README.rst" eq_refl eq_refl
             ltac:(discriminate) ltac:(discriminate)).
  - exact (script_leaves_other_files sdist_world (sdist_files init_plain)
             ∅ "setup.cfg" eq_refl eq_refl
             ltac:(discriminate) ltac:(discriminate)).
Defined.

(** X3. Logging: however the run ends, every record in the log is at
    or above the level the root logger works at: without [-W all] the
    script logs nothing below a warning (the message of line 108 is
    never recorded), with it nothing below [DEBUG]. *)
Theorem script_logs_above_threshold (w : World) (f : gmap string string)
    (d : gmap string tree) :
  Forall (fun r => threshold w <= fst r)
    (log_records (final_state (run w f d))).
Proof.
  rewrite final_state_run.
  apply (maintains_script w
           (fun s => threshold w <= log_level s
                     /\ Forall (fun r => threshold w <= fst r) (log_records s))).
  - intros p v s _ Hs. exact Hs.
  - intros _ p s _ Hs. split; [exact Hs | intros t; exact Hs].
  - intros r s Hr [Hl Hf]. split; [exact Hl|]. simpl.
    apply Forall_app. split; [exact Hf|]. constructor; [lia|constructor].
  - intros o s Hs. exact Hs.
  - intros Hall s [Hl Hf]. unfold threshold in *.
    rewrite bool_decide_eq_true_2 in * by exact Hall.
    split; [simpl; lia | exact Hf].
  - split; [|constructor]. unfold threshold, initial. simpl.
    destruct (bool_decide _); unfold DEBUG, WARNING; lia.
Qed.

(** X5. The staging of the PROJ.4 data (lines 90-98) is under no
    [try]: with PACKAGE_DATA set, when what PROJ_LIB names exists but
    cannot be staged (it is a regular file, it is [fiona/proj_data]
    itself, or [fiona/proj_data] is a regular file), the [OSError]
    ends the script there, whatever would follow, and the copy staged
    before is gone. *)
Theorem proj_staging_failure_is_fatal (w : World) (s : State) :
  truthy (environ w !! "PACKAGE_DATA") = true ->
  path_exists s (projdatadir w) = true ->
  projdatadir w = "fiona/proj_data" \/ dirs s !! projdatadir w = None
  \/ is_Some (files s !! "fiona/proj_data") ->
  exists e,
    exn_cls e = OSError
    /\ forall B (k : unit -> M B),
         bind (proj_block w) k s
         = Raise e (set_dirs (delete "fiona/proj_data" (dirs s)) s).
Proof.
  intros Hpd Hex Hbad.
  destruct (stage_data_fails (projdatadir w) "fiona/proj_data" s Hbad)
    as (e & He & Hstage).
  exists e. split; [exact He|]. intros B k.
  unfold bind at 1. unfold proj_block, when. rewrite Hpd.
  unfold bind, get. rewrite Hex, Hstage. reflexivity.
Qed.

Lemma proj_staging_failure_is_fatal_witness :
  truthy (environ proj_file_world !! "PACKAGE_DATA") = true
  /\ path_exists (initial (sdist_files init_plain) staged_dirs)
       (projdatadir proj_file_world) = true
  /\ exists e,
      exn_cls e = OSError
      /\ proj_block proj_file_world (initial (sdist_files init_plain) staged_dirs)
         = Raise e (set_dirs (delete "fiona/proj_data" staged_dirs)
                      (initial (sdist_files init_plain) staged_dirs)).
Proof.
  split; [reflexivity|]. split; [reflexivity|].
  destruct (proj_staging_failure_is_fatal proj_file_world
              (initial (sdist_files init_plain) staged_dirs)
              eq_refl eq_refl (or_intror (or_introl eq_refl)))
    as (e & He & Hk).
  exists e. split; [exact He|].
  specialize (Hk unit ret). unfold bind, ret in Hk.
  destruct (proj_block proj_file_world _) as [[] s'|e' s'|c s']; exact Hk.
Defined.

Example run_with_proj_lib_a_file :
  exists e s,
    run proj_file_world (sdist_files init_plain) staged_dirs = Traceback e s
    /\ exn_cls e = OSError
    /\ dirs s !! "fiona/proj_data" = None.
Proof. vm_compute. eexists _, _. split_and!; reflexivity. Qed.

(** X7. When each of the three gdal-config calls prints one line, the
    option lists are gathered from the [--cflags] line and the
    [--libs] line, each stripped. *)
Theorem options_from_one_line_each (w : World) (s : State) (l1 l2 l3 : string) :
  call w (gdal_config w) "--cflags" = inr (printed l1) ->
  call w (gdal_config w) "--libs" = inr (printed l2) ->
  call w (gdal_config w) "--datadir" = inr (printed l3) ->
  no_linebreak l1 = true -> no_linebreak l2 = true -> no_linebreak l3 = true ->
  exists s',
    gdal_block w s = Ok tt s'
    /\ options s' = gathered (options s) (strip l1) (strip l2).
Proof.
  intros Hc1 Hc2 Hc3 H1 H2 H3.
  destruct (gdal_block_gathers w s _ _ _ Hc1 Hc2 Hc3) as (s' & Hb & Ho).
  exists s'. split; [exact Hb|]. rewrite Ho.
  by rewrite (proj1 (read_config_lines l1 l2 l3 H1 H2 H3)).
Qed.

Lemma options_from_one_line_each_witness :
  call wheel_world (gdal_config wheel_world) "--cflags"
  = inr (printed "-I/usr/include/gdal")
  /\ no_linebreak "-I/usr/include/gdal" = true
  /\ exists s',
      gdal_block wheel_world (initial ∅ ∅) = Ok tt s'
      /\ options s'
         = {| include_dirs := ["/usr/include/gdal"]; library_dirs := ["/usr/lib"];
              libraries := ["gdal"]; extra_link_args := [] |}.
Proof.
  split; [reflexivity|]. split; [reflexivity|].
  exact (options_from_one_line_each wheel_world (initial ∅ ∅)
           "-I/usr/include/gdal" "-L/usr/lib -lgdal" "/usr/share/gdal"
           eq_refl eq_refl eq_refl eq_refl eq_refl eq_refl).
Defined.

(** X8. When the [--cflags] call prints nothing (and raises nothing)
    while the other two print one line each, the lines shift: the
    [--libs] line is classified as cflags, so that its [-L] and [-l]
    tokens are dropped, and the data directory line is classified as
    libs, so that the path ends up among the linker arguments. *)
Theorem options_when_cflags_prints_nothing (w : World) (s : State)
    (l2 l3 : string) :
  call w (gdal_config w) "--cflags" = inr "" ->
  call w (gdal_config w) "--libs" = inr (printed l2) ->
  call w (gdal_config w) "--datadir" = inr (printed l3) ->
  no_linebreak l2 = true -> no_linebreak l3 = true ->
  exists s',
    gdal_block w s = Ok tt s'
    /\ options s' = gathered (options s) (strip l2) (strip l3).
Proof.
  intros Hc1 Hc2 Hc3 H2 H3.
  destruct (gdal_block_gathers w s _ _ _ Hc1 Hc2 Hc3) as (s' & Hb & Ho).
  exists s'. split; [exact Hb|]. rewrite Ho.
  by rewrite (proj2 (read_config_lines "" l2 l3 eq_refl H2 H3)).
Qed.

Lemma options_when_cflags_prints_nothing_witness :
  call silent_world (gdal_config silent_world) "--cflags" = inr ""
  /\ exists s',
      gdal_block silent_world (initial ∅ ∅) = Ok tt s'
      /\ options s'
         = {| include_dirs := []; library_dirs := []; libraries := [];
              extra_link_args := ["/usr/share/gdal"] |}.
Proof.
  split; [reflexivity|].
  exact (options_when_cflags_prints_nothing silent_world (initial ∅ ∅)
           "-L/usr/lib -lgdal" "/usr/share/gdal"
           eq_refl eq_refl eq_refl eq_refl eq_refl).
Defined.

(** ** How a run ends *)

Lemma configure_logging_state (w : World) (s : State) :
  exists s', configure_logging w s = Ok tt s'
             /\ files s' = files s /\ dirs s' = dirs s.
Proof.
  unfold configure_logging, when.
  destruct (bool_decide _); eexists; split_and!; reflexivity.
Qed.

(** Whether [MANIFEST.in] exists is settled before the script starts:
    nothing the script does changes it. *)
Lemma manifest_stable (w : World) (b : bool) :
  let P := fun s => path_exists s "MANIFEST.in" = b in
  (forall p v s, written_file p -> P s -> P (set_files (<[p := v]> (files s)) s))
  /\ (forall p s, staged_dir p -> P s ->
        P (set_dirs (delete p (dirs s)) s)
        /\ forall t, P (set_dirs (<[p := t]> (dirs s)) s)).
Proof.
  split.
  - intros p v s [-> | ->] Hs; unfold path_exists in *; simpl;
      by rewrite lookup_insert_ne.
  - intros p s [-> | ->] Hs; unfold path_exists in *; simpl;
      (split; [by rewrite lookup_delete_ne | intros t; by rewrite lookup_insert_ne]).
Qed.

Lemma gdal_block_manifest (w : World) (s s' : State) :
  gdal_block w s = Ok tt s' ->
  path_exists s' "MANIFEST.in" = path_exists s "MANIFEST.in".
Proof.
  intros H.
  destruct (manifest_stable w (path_exists s "MANIFEST.in")) as [Hf Hd].
  apply (maintains_Ok
           (fun s0 => path_exists s0 "MANIFEST.in" = path_exists s "MANIFEST.in")
           (gdal_block w) s s' tt); [|exact H|reflexivity].
  apply maintains_gdal_block;
    [exact Hf | intros _; exact Hd | intros; assumption | intros; assumption].
Qed.

Lemma proj_block_manifest (w : World) (s s' : State) :
  proj_block w s = Ok tt s' ->
  path_exists s' "MANIFEST.in" = path_exists s "MANIFEST.in".
Proof.
  intros H.
  destruct (manifest_stable w (path_exists s "MANIFEST.in")) as [Hf Hd].
  apply (maintains_Ok
           (fun s0 => path_exists s0 "MANIFEST.in" = path_exists s "MANIFEST.in")
           (proj_block w) s s' tt); [|exact H|reflexivity].
  apply maintains_proj_block. intros _; exact Hd.
Qed.

Lemma read_text_then {B} (p : string) (k : string -> M B) (s : State) :
  bind (read_text p) k s
  = match files s !! p with
    | Some text => k (universal_newlines text) s
    | None => Raise (Exn OSError ("No such file or directory: " ++ p)) s
    end.
Proof. unfold read_text, bind, read_file. by destruct (files s !! p). Qed.

(** From the reading of [README.rst] on, without PACKAGE_DATA. *)
Lemma finish_ending (w : World) (v : string) (s : State) :
  truthy (environ w !! "PACKAGE_DATA") = false ->
  ending_of (finish w (Some v) s)
  = if negb (is_set (files s !! "README.rst") && is_set (files s !! "CREDITS.txt")
             && is_set (files s !! "CHANGES.txt"))
    then EndsWith OSError
    else if path_exists s "MANIFEST.in" && negb (is_set (cythonize w))
    then EndsExit 1
    else EndsInSetup.
Proof.
  intros Hpd. unfold finish.
  rewrite read_text_then.
  destruct (files s !! "README.rst") as [readme|]; [|reflexivity].
  rewrite read_text_then.
  destruct (files s !! "CREDITS.txt") as [credits|]; [|reflexivity].
  rewrite read_text_then.
  destruct (files s !! "CHANGES.txt") as [changes|]; [|reflexivity].
  cbn [is_set andb negb]. unfold bind, modify.
  destruct (gdal_block_total w (set_options empty_options s)) as [s3 H3].
  rewrite H3. apply gdal_block_manifest in H3.
  change (path_exists (set_options empty_options s) "MANIFEST.in")
    with (path_exists s "MANIFEST.in") in H3.
  unfold proj_block, when. rewrite Hpd. unfold ret at 1.
  unfold select_ext_modules, bind, get. rewrite H3.
  destruct (path_exists s "MANIFEST.in"); [|reflexivity].
  unfold log_call, modify.
  destruct (cythonize w); reflexivity.
Qed.

(** In the model, where every file decodes, opens and is written,
    and [cythonize] returns: how the script ends without
    PACKAGE_DATA, read off the files it starts with. *)
Lemma ending_classified (w : World) (f : gmap string string)
    (d : gmap string tree) :
  truthy (environ w !! "PACKAGE_DATA") = false ->
  ending (run w f d) = expected_ending w f d.
Proof.
  intros Hpd. rewrite ending_run. unfold expected_ending, script, bind.
  destruct (configure_logging_state w (initial f d)) as (s0 & -> & Hf0 & Hd0).
  simpl in Hf0, Hd0.
  destruct (f !! "fiona/__init__.py") as [text|] eqn:Hinit.
  - rewrite (discover_version_spec s0 text) by (by rewrite Hf0).
    destruct (forallb has_eq (version_lines text)); [|reflexivity].
    destruct (last (version_lines text)) as [line|]; [|reflexivity].
    cbn [negb is_set].
    rewrite finish_ending by exact Hpd.
    unfold path_exists. simpl. rewrite Hf0, Hd0.
    rewrite !lookup_insert_ne by discriminate. reflexivity.
  - unfold discover_version, parse_version, bind, read_file.
    rewrite Hf0, Hinit. reflexivity.
Qed.

(** X9. gdal-config never decides how the script ends: in a run that
    neither stages data (PACKAGE_DATA unset or empty) nor calls
    [cythonize], whatever the three calls print or raise, the script
    ends the same way, on the same class of exception, with the same
    exit status, or in [setup]. *)
Theorem gdal_config_never_decides_the_ending (w : World)
    (c : string -> string -> exn + string) (f : gmap string string)
    (d : gmap string tree) :
  truthy (environ w !! "PACKAGE_DATA") = false ->
  no_cythonize_call w f d = true ->
  ending (run (with_call c w) f d) = ending (run w f d).
Proof.
  intros Hpd _.
  rewrite (ending_classified w f d Hpd).
  rewrite (ending_classified (with_call c w) f d Hpd).
  reflexivity.
Qed.

Lemma gdal_config_never_decides_the_ending_witness :
  truthy (environ sdist_world !! "PACKAGE_DATA") = false
  /\ no_cythonize_call sdist_world checkout_files ∅ = true
  /\ ending (run (with_call answering_gdal_config sdist_world) checkout_files ∅)
     = ending (run sdist_world checkout_files ∅).
Proof.
  split; [reflexivity|]. split; [reflexivity|].
  exact (gdal_config_never_decides_the_ending sdist_world answering_gdal_config
           checkout_files ∅ eq_refl eq_refl).
Defined.

(** ** What is written before a failure *)

(** X10. [VERSION.txt] at the end of a run, however it ends. When
    [fiona/__init__.py] cannot be read, no file is changed at all.
    When a line with [__version__] has no [=], [VERSION.txt] is as it
    was. When no line has [__version__], [VERSION.txt] has been
    created or truncated and is left empty. In every other case it
    holds the version, also when the script fails later. *)
Theorem version_file_at_the_end (w : World) (f : gmap string string)
    (d : gmap string tree) :
  let s := final_state (run w f d) in
  match f !! "fiona/__init__.py" with
  | None => files s = f
  | Some text =>
      if forallb has_eq (version_lines text) then
        match last (version_lines text) with
        | Some line => files s !! "VERSION.txt" = Some (version_between line)
        | None => files s !! "VERSION.txt" = Some ""
        end
      else files s !! "VERSION.txt" = f !! "VERSION.txt"
  end.
Proof.
  cbv zeta. rewrite final_state_run. unfold script, bind.
  destruct (configure_logging_state w (initial f d)) as (s0 & -> & Hf0 & Hd0).
  simpl in Hf0, Hd0.
  destruct (f !! "fiona/__init__.py") as [text|] eqn:Hinit.
  - rewrite (discover_version_spec s0 text) by (by rewrite Hf0).
    destruct (forallb has_eq (version_lines text)).
    + destruct (last (version_lines text)) as [line|].
      * rewrite keeps_finish. simpl. apply lookup_insert_eq.
      * simpl. apply lookup_insert_eq.
    + simpl. by rewrite Hf0.
  - unfold discover_version, parse_version, bind, read_file.
    rewrite Hf0, Hinit. simpl. exact Hf0.
Qed.

Example version_written_before_readme_is_missed :
  exists e s,
    run sdist_world (<["fiona/__init__.py" := init_plain]> ∅) ∅ = Traceback e s
    /\ exn_cls e = OSError
    /\ files s !! "VERSION.txt" = Some "1.4.8".
Proof. vm_compute. eexists _, _. split_and!; reflexivity. Qed.

(** ** What [setup] is called with *)

Lemma read_text_Ok (p : string) (s s' : State) (text : string) :
  read_text p s = Ok text s' ->
  s' = s /\ exists raw, files s !! p = Some raw /\ text = universal_newlines raw.
Proof.
  unfold read_text, bind, read_file. destruct (files s !! p) as [raw|];
    [|discriminate].
  unfold ret. intros H. injection H as <- <-. eauto.
Qed.

(** What a run that reaches [setup] went through. *)
Lemma finish_Ok (w : World) (version : option string) (s s' : State)
    (args : SetupArgs) :
  finish w version s = Ok args s' ->
  exists readme credits changes s3 s4 exts v,
    files s !! "README.rst" = Some readme
    /\ files s !! "CREDITS.txt" = Some credits
    /\ files s !! "CHANGES.txt" = Some changes
    /\ gdal_block w (set_options empty_options s) = Ok tt s3
    /\ proj_block w s3 = Ok tt s4
    /\ select_ext_modules w s4 = Ok exts s'
    /\ version = Some v
    /\ args = setup_args w v (universal_newlines readme)
               (universal_newlines changes) (universal_newlines credits) exts.
Proof.
  unfold finish. intros H.
  apply bind_Ok in H as (readme' & s1 & H1 & H).
  apply read_text_Ok in H1 as [-> (readme & H1 & ->)].
  apply bind_Ok in H as (credits' & s1 & H2 & H).
  apply read_text_Ok in H2 as [-> (credits & H2 & ->)].
  apply bind_Ok in H as (changes' & s1 & H3 & H).
  apply read_text_Ok in H3 as [-> (changes & H3 & ->)].
  apply bind_Ok in H as ([] & s2 & Hm & H).
  unfold modify in Hm. injection Hm as <-.
  apply bind_Ok in H as ([] & s3 & Hg & H).
  apply bind_Ok in H as ([] & s4 & Hp & H).
  apply bind_Ok in H as (exts & s5 & He & H).
  apply bind_Ok in H as (v & s6 & Hv & H).
  unfold ret in H. injection H as <- <-.
  destruct version as [v'|]; [|discriminate].
  simpl in Hv. unfold ret in Hv. injection Hv as -> ->.
  exists readme, credits, changes, s3, s4, exts, v. by split_and!.
Qed.

Lemma script_Ok (w : World) (f : gmap string string) (d : gmap string tree)
    (args : SetupArgs) (s : State) :
  run w f d = SetupCalled args s ->
  exists s0 version s1,
    configure_logging w (initial f d) = Ok tt s0
    /\ discover_version s0 = Ok version s1
    /\ finish w version s1 = Ok args s.
Proof.
  unfold run. destruct (script w (initial f d)) as [a s'|e s'|c s'] eqn:H;
    try discriminate.
  intros Hr. injection Hr as -> ->. unfold script in H.
  apply bind_Ok in H as ([] & s0 & H0 & H).
  apply bind_Ok in H as (version & s1 & H1 & H).
  eauto 10.
Qed.

(** A version that was found went to [VERSION.txt], and nothing else
    was touched. *)
Lemma discover_version_Ok (s s' : State) (version : option string) :
  discover_version s = Ok version s' ->
  exists v, version = Some v
            /\ s' = set_files (<["VERSION.txt" := v]> (files s)) s.
Proof.
  destruct (files s !! "fiona/__init__.py") as [text|] eqn:Hinit.
  - rewrite (discover_version_spec s text Hinit).
    destruct (forallb has_eq (version_lines text)); [|discriminate].
    destruct (last (version_lines text)) as [line|]; [|discriminate].
    intros H. injection H as <- <-. eauto.
  - unfold discover_version, parse_version, bind, read_file. rewrite Hinit.
    discriminate.
Qed.

Lemma select_ext_modules_Ok (w : World) (s s' : State) (exts : list Extension) :
  select_ext_modules w s = Ok exts s' ->
  options s' = options s
  /\ if path_exists s "MANIFEST.in"
     then exists cy, cythonize w = Some cy
                     /\ exts = cy (pyx_extensions (options s))
     else exts = c_extensions (options s).
Proof.
  unfold select_ext_modules, bind, get.
  destruct (path_exists s "MANIFEST.in").
  - unfold log_call, modify.
    destruct (cythonize w) as [cy|].
    + destruct (Nat.leb _ _); unfold ret; intros H; injection H as <- <-;
        (split; [reflexivity|by exists cy]).
    + destruct (Nat.leb _ _); simpl; destruct (Nat.leb _ _); discriminate.
  - unfold ret. intros H. injection H as <- <-. by split.
Qed.

(** X11. When the script reaches [setup], the three text files were
    there when it started, and the long description is the README,
    the change log and the credits as they were then, each read in
    text mode (a carriage return, alone or before a line feed, read
    as a line feed), joined by line feeds in that order; the extension
    modules are built from the options the script has gathered: from
    the [.pyx] sources through Cython when [MANIFEST.in] was there,
    from the [.c] sources otherwise. *)
Theorem setup_receives_texts_and_extensions (w : World)
    (f : gmap string string) (d : gmap string tree)
    (args : SetupArgs) (s : State) :
  run w f d = SetupCalled args s ->
  exists readme credits changes,
    f !! "README.rst" = Some readme
    /\ f !! "CREDITS.txt" = Some credits
    /\ f !! "CHANGES.txt" = Some changes
    /\ sa_long_description args
       = universal_newlines readme ++ String LF ""
         ++ universal_newlines changes ++ String LF ""
         ++ universal_newlines credits
    /\ if path_exists (initial f d) "MANIFEST.in"
       then exists cy, cythonize w = Some cy
                       /\ sa_ext_modules args = cy (pyx_extensions (options s))
       else sa_ext_modules args = c_extensions (options s).
Proof.
  intros Hrun.
  apply script_Ok in Hrun as (s0 & version & s1 & H0 & H1 & Hfin).
  destruct (configure_logging_state w (initial f d)) as (s0' & H0' & Hf0 & Hd0).
  rewrite H0 in H0'. injection H0' as <-. simpl in Hf0, Hd0.
  apply discover_version_Ok in H1 as (v0 & -> & ->).
  apply finish_Ok in Hfin
    as (readme & credits & changes & s3 & s4 & exts & v
        & Hr & Hc & Hch & Hg & Hp & He & Hv & ->).
  simpl in Hr, Hc, Hch.
  rewrite lookup_insert_ne, Hf0 in Hr by discriminate.
  rewrite lookup_insert_ne, Hf0 in Hc by discriminate.
  rewrite lookup_insert_ne, Hf0 in Hch by discriminate.
  exists readme, credits, changes. split_and!; try done.
  apply select_ext_modules_Ok in He as [Ho He]. simpl. rewrite Ho.
  apply gdal_block_manifest in Hg. apply proj_block_manifest in Hp.
  assert (Hm : path_exists s4 "MANIFEST.in" = path_exists (initial f d) "MANIFEST.in").
  { rewrite Hp, Hg. unfold path_exists. simpl.
    rewrite lookup_insert_ne, Hf0, Hd0 by discriminate. reflexivity. }
  rewrite Hm in He. exact He.
Qed.

Lemma setup_receives_texts_and_extensions_witness :
  exists args s,
    run silent_world dos_files ∅ = SetupCalled args s
    /\ sa_long_description args
       = printed "Fiona" ++ String LF "" ++ "1.0" ++ String LF ""
         ++ "Sean Gillies"
    /\ sa_ext_modules args = c_extensions (options s).
Proof.
  destruct (run silent_world dos_files ∅) as [args s|e s|c s] eqn:Hrun.
  - exists args, s. split; [reflexivity|].
    destruct (setup_receives_texts_and_extensions _ _ _ args s Hrun)
      as (readme & credits & changes & H1 & H2 & H3 & Hl & He).
    vm_compute in H1, H2, H3.
    injection H1 as <-. injection H2 as <-. injection H3 as <-.
    split; [exact Hl|exact He].
  - vm_compute in Hrun. discriminate.
  - vm_compute in Hrun. discriminate.
Defined.

(** ** The option lists at the end of a run *)

Lemma gdal_block_options (w : World) (s : State) :
  exists s',
    gdal_block w s = Ok tt s' /\ options s' = gdal_options w (options s).
Proof.
  unfold gdal_block, try_except, gdal_options.
  rewrite gdal_body_cases. cbv zeta.
  destruct (call w (gdal_config w) "--cflags") as [e|t1].
  { simpl. unfold log_call, modify. eexists. split; [reflexivity|].
    by destruct (Nat.leb _ _). }
  destruct (call w (gdal_config w) "--libs") as [e|t2].
  { simpl. unfold log_call, modify. eexists. split; [reflexivity|].
    by destruct (Nat.leb _ _). }
  destruct (call w (gdal_config w) "--datadir") as [e|t3].
  { simpl. unfold log_call, modify. eexists. split; [reflexivity|].
    by destruct (Nat.leb _ _). }
  destruct (after_calls_result w ((t1 ++ t2) ++ t3)
              (set_files (<["gdal-config.txt" := (t1 ++ t2) ++ t3]> (files s)) s))
    as (s' & _ & _ & _ & Ho & Hres).
  assert (Ho' : options s'
                = let '(cflags, libs, _) := read_config ((t1 ++ t2) ++ t3) in
                  gathered (options s) cflags libs).
  { rewrite Ho. simpl. by destruct (read_config _) as [[cflags libs] datadir]. }
  destruct Hres as [-> | [e ->]].
  - exists s'. split; [reflexivity | exact Ho'].
  - simpl. unfold log_call, modify. eexists. split; [reflexivity|].
    destruct (Nat.leb _ _); exact Ho'.
Qed.

Lemma options_stable (w : World) (o : Options) :
  let P := fun s => options s = o in
  (forall p s, staged_dir p -> P s ->
     P (set_dirs (delete p (dirs s)) s)
     /\ forall t, P (set_dirs (<[p := t]> (dirs s)) s))
  /\ (forall (r : nat * string) s, log_level s <= fst r -> P s -> P (add_record r s)).
Proof. split; [intros p s _ Hs; by split | intros r s _ Hs; exact Hs]. Qed.

(** X12. The option lists are gathered whole or not at all: unless
    the run stops with a traceback, the lists it ends with are either
    all empty or those gathered from the first two lines read back
    once the three calls have answered; when one of the calls raised
    they are empty. Neither the staging of the data nor the choice of
    the extension sources changes them. *)
Theorem options_at_the_end (w : World) (f : gmap string string)
    (d : gmap string tree) :
  is_traceback (run w f d) = false ->
  options (final_state (run w f d)) = empty_options
  \/ options (final_state (run w f d)) = gdal_options w empty_options.
Proof.
  intros Hrun. right. rewrite final_state_run. unfold run in Hrun.
  unfold script, bind in *.
  destruct (configure_logging_state w (initial f d)) as (s0 & H0 & _).
  rewrite H0 in *.
  destruct (discover_version s0) as [version s1|e s1|c s1] eqn:H1;
    [|discriminate|].
  2:{ exfalso. revert H1.
      unfold discover_version, parse_version, bind, read_file.
      destruct (files s0 !! "fiona/__init__.py") as [text|]; [|discriminate].
      rewrite version_loop_spec.
      destruct (forallb _ _); [|discriminate].
      destruct (last _); discriminate. }
  unfold finish, read_text, bind, read_file, ret in *.
  destruct (files s1 !! "README.rst") as [readme|]; [|discriminate].
  destruct (files s1 !! "CREDITS.txt") as [credits|]; [|discriminate].
  destruct (files s1 !! "CHANGES.txt") as [changes|]; [|discriminate].
  unfold modify in *.
  destruct (gdal_block_options w (set_options empty_options s1)) as (s3 & H3 & Ho).
  rewrite H3 in *. clear Hrun. simpl in Ho.
  destruct (options_stable w (gdal_options w empty_options)) as [Hd Hl].
  assert (Hp := maintains_proj_block w _ (fun _ => Hd) s3 Ho).
  destruct (proj_block w s3) as [[] s4|e s4|c s4]; [|exact Hp|exact Hp].
  simpl in Hp.
  assert (He := maintains_select_ext_modules w _ Hl s4 Hp).
  destruct (select_ext_modules w s4) as [exts s5|e s5|c s5]; [|exact He|exact He].
  simpl in He. destruct version; exact He.
Qed.

Lemma options_at_the_end_witness :
  is_traceback (run wheel_world (sdist_files init_plain) ∅) = false
  /\ options (final_state (run wheel_world (sdist_files init_plain) ∅))
     = {| include_dirs := ["/usr/include/gdal"]; library_dirs := ["/usr/lib"];
          libraries := ["gdal"]; extra_link_args := [] |}.
Proof.
  assert (Hrun : is_traceback (run wheel_world (sdist_files init_plain) ∅)
                 = false) by reflexivity.
  split; [exact Hrun|].
  destruct (options_at_the_end wheel_world (sdist_files init_plain) ∅ Hrun)
    as [H | H]; [vm_compute in H; discriminate | exact H].
Defined.

(** ** Files left by an earlier run *)

Lemma same_after_write (p x : string) (sA sB : State) :
  (forall q, q <> p -> files sA !! q = files sB !! q) ->
  dirs sA = dirs sB -> log_level sA = log_level sB ->
  log_records sA = log_records sB -> options sA = options sB ->
  set_files (<[p := x]> (files sA)) sA = set_files (<[p := x]> (files sB)) sB.
Proof.
  intros Hf Hd Hl Hr Ho. unfold set_files. rewrite Hd, Hl, Hr, Ho. f_equal.
  apply map_eq. intros q. destruct (decide (p = q)) as [<-|Hne].
  - by rewrite !lookup_insert_eq.
  - rewrite !lookup_insert_ne by exact Hne. apply Hf. congruence.
Qed.

(** The block of lines 56-88 starts by truncating [gdal-config.txt]:
    what the file held does not matter. *)
Lemma gdal_block_overwrites (w : World) (sA sB : State) :
  (forall q, q <> "gdal-config.txt" -> files sA !! q = files sB !! q) ->
  dirs sA = dirs sB -> log_level sA = log_level sB ->
  log_records sA = log_records sB -> options sA = options sB ->
  gdal_block w sA = gdal_block w sB.
Proof.
  intros Hf Hd Hl Hr Ho. unfold gdal_block, try_except.
  rewrite !gdal_body_cases. cbv zeta.
  destruct (call w (gdal_config w) "--cflags") as [e|t1];
    [by rewrite (same_after_write _ _ sA sB)|].
  destruct (call w (gdal_config w) "--libs") as [e|t2];
    [by rewrite (same_after_write _ _ sA sB)|].
  destruct (call w (gdal_config w) "--datadir") as [e|t3];
    by rewrite (same_after_write _ _ sA sB).
Qed.

Lemma finish_overwrites (w : World) (version : option string) (sA sB : State) :
  (forall q, q <> "gdal-config.txt" -> files sA !! q = files sB !! q) ->
  dirs sA = dirs sB -> log_level sA = log_level sB ->
  log_records sA = log_records sB -> options sA = options sB ->
  finish w version sB = finish w version sA
  \/ exists e, finish w version sA = Raise e sA
               /\ finish w version sB = Raise e sB.
Proof.
  intros Hf Hd Hl Hr Ho. unfold finish.
  rewrite !(read_text_then "README.rst"), <- (Hf "README.rst") by discriminate.
  destruct (files sA !! "README.rst"); [|right; eauto].
  rewrite !(read_text_then "CREDITS.txt"), <- (Hf "CREDITS.txt") by discriminate.
  destruct (files sA !! "CREDITS.txt"); [|right; eauto].
  rewrite !(read_text_then "CHANGES.txt"), <- (Hf "CHANGES.txt") by discriminate.
  destruct (files sA !! "CHANGES.txt"); [|right; eauto].
  left. change (bind (modify ?f) ?k ?s) with (k tt (f s)). cbv beta.
  unfold bind at 1 5.
  by rewrite (gdal_block_overwrites w (set_options empty_options sA)
                (set_options empty_options sB)).
Qed.

Lemma script_overwrites (w : World) (f f' : gmap string string)
    (d : gmap string tree) :
  agree_but_outputs f f' ->
  script w (initial f' d) = script w (initial f d)
  \/ exists e s s', script w (initial f d) = Raise e s
                    /\ script w (initial f' d) = Raise e s'.
Proof.
  intros Hagree. unfold script, bind, configure_logging, when.
  set (level := if bool_decide ("all" ∈ warnoptions w) then DEBUG else WARNING).
  assert (Hs : forall g, (if bool_decide ("all" ∈ warnoptions w)
                          then modify (set_log_level DEBUG) else ret tt)
                           (initial g d)
                         = Ok tt (set_log_level level (initial g d))).
  { intros g. unfold level. by destruct (bool_decide _). }
  rewrite !Hs.
  assert (Hinit : f' !! "fiona/__init__.py" = f !! "fiona/__init__.py")
    by (symmetry; by apply Hagree).
  destruct (f !! "fiona/__init__.py") as [text|] eqn:Hf.
  - rewrite !(discover_version_spec _ text) by (simpl; congruence).
    destruct (forallb has_eq (version_lines text)); [|right; eauto].
    destruct (last (version_lines text)) as [line|]; [|right; eauto].
    match goal with
    | |- finish _ _ ?sB = finish _ _ ?sA \/ _ =>
        destruct (finish_overwrites w (Some (version_between line)) sA sB)
          as [Heq | (e & HA & HB)]
    end; try reflexivity.
    + intros q Hq. simpl. destruct (decide ("VERSION.txt" = q)) as [<-|Hne].
      * by rewrite !lookup_insert_eq.
      * rewrite !lookup_insert_ne by exact Hne. apply Hagree; congruence.
    + by left.
    + right; eauto.
  - right. unfold discover_version, parse_version, bind, read_file. simpl.
    rewrite Hinit, Hf. eauto.
Qed.

(** X13. What [VERSION.txt] and [gdal-config.txt] hold when the script
    starts, or whether they are there, decides nothing: a run over the
    remains of an earlier run calls [setup] with the same arguments,
    leaves with the same status and, in both cases, ends in the very
    same state; when it stops with a traceback, it is on the same
    exception. *)
Theorem stale_outputs_are_ignored (w : World) (f f' : gmap string string)
    (d : gmap string tree) :
  agree_but_outputs f f' ->
  ending (run w f' d) = ending (run w f d)
  /\ called_with (run w f' d) = called_with (run w f d)
  /\ (is_traceback (run w f d) = false -> run w f' d = run w f d).
Proof.
  intros Hagree. unfold run.
  destruct (script_overwrites w f f' d Hagree) as [-> | (e & s & s' & -> & ->)].
  - by split_and!.
  - by split_and!.
Qed.

Lemma stale_outputs_are_ignored_witness :
  agree_but_outputs (sdist_files init_plain) rebuilt_files
  /\ is_traceback (run wheel_world (sdist_files init_plain) ∅) = false
  /\ run wheel_world rebuilt_files ∅
     = run wheel_world (sdist_files init_plain) ∅.
Proof.
  assert (Hagree : agree_but_outputs (sdist_files init_plain) rebuilt_files).
  { intros p H1 H2. unfold rebuilt_files.
    by rewrite !lookup_insert_ne by congruence. }
  split; [exact Hagree|]. split; [reflexivity|].
  exact (proj2 (proj2 (stale_outputs_are_ignored wheel_world
                         (sdist_files init_plain) rebuilt_files ∅ Hagree))
           eq_refl).
Defined.

(** * Properties of the access-engine contracts *)

Import Engine.

Local Open Scope list_scope.

Section Capture.

Context {A : Type}.
Variable kind : ErrorKind.

(** Warnings are collected in order and the operation runs on. *)
Lemma capture_warnings (op : Native A) (acc : list ErrorRecord) :
  forallb is_warning (signals op) = true ->
  capture kind op acc = Completed (native_result op) (acc ++ signals op).
Proof.
  revert acc. induction op as [a|r k IH]; intros acc Hw; simpl in *.
  - by rewrite app_nil_r.
  - apply andb_prop in Hw as [Hr Hk]. unfold is_warning in Hr.
    destruct (severity r); try discriminate.
    rewrite IH by assumption. by rewrite <- app_assoc.
Qed.

(** The first record that is not a warning ends the operation. *)
Lemma capture_aborts (op : Native A) (acc pre post : list ErrorRecord)
    (r : ErrorRecord) :
  signals op = pre ++ r :: post ->
  forallb is_warning pre = true ->
  is_warning r = false ->
  capture kind op acc = Aborted (raise_record kind r) (acc ++ pre).
Proof.
  revert acc pre. induction op as [a|r' k IH]; intros acc pre Hs Hpre Hr; simpl in *.
  - by destruct pre.
  - destruct pre as [|p pre]; simpl in *.
    + injection Hs as -> _. unfold is_warning in Hr.
      rewrite app_nil_r. destruct (severity r); [discriminate|reflexivity..].
    + injection Hs as -> Hs. apply andb_prop in Hpre as [Hp Hpre].
      unfold is_warning in Hp. destruct (severity p); try discriminate.
      rewrite (IH _ pre Hs Hpre Hr). by rewrite <- app_assoc.
Qed.

End Capture.

(** C6. Under the capture context, an operation that signals only
    warnings is never aborted: it completes with its own result, the
    warnings attached to it in order. The first record of severity
    error or fatal aborts the operation: it is raised as a structured
    error, of the kind of the operation for an error and
    [NativeFatalError] for a fatal one, that carries the native code
    and message of the record. *)
Theorem severity_policy {A : Type} (kind : ErrorKind) (op : Native A) :
  (forallb is_warning (signals op) = true ->
   with_error_capture kind op = Completed (native_result op) (signals op))
  /\ (forall pre r post,
        signals op = pre ++ r :: post ->
        forallb is_warning pre = true ->
        is_warning r = false ->
        with_error_capture kind op
        = Aborted {| err_kind := match severity r with
                                 | SevFatal => NativeFatalError
                                 | _ => kind
                                 end;
                     err_code := code r;
                     err_message := message r |} pre).
Proof.
  split.
  - intros Hw. apply (capture_warnings kind op [] Hw).
  - intros pre r post Hs Hpre Hr.
    apply (capture_aborts kind op [] pre post r Hs Hpre Hr).
Qed.

Lemma severity_policy_witness :
  with_error_capture DataSourceOpenError
    (Signal deprecation (Signal deprecation (Done 7%Z)))
  = Completed 7%Z [deprecation; deprecation]
  /\ with_error_capture DataSourceOpenError
       (Signal deprecation (Signal cannot_open (Signal deprecation (Done 7%Z))))
     = Aborted {| err_kind := DataSourceOpenError; err_code := 4;
                  err_message := "unable to open" |} [deprecation].
Proof.
  split.
  - apply (proj1 (severity_policy DataSourceOpenError
                    (Signal deprecation (Signal deprecation (Done 7%Z))))).
    reflexivity.
  - apply (proj2 (severity_policy DataSourceOpenError
                    (Signal deprecation
                       (Signal cannot_open (Signal deprecation (Done 7%Z)))))
             [deprecation] cannot_open [deprecation]); reflexivity.
Defined.

(** ** Closing a data source *)

Lemma set_live_false_twice (ds : DataSource) :
  set_live false (set_live false ds) = set_live false ds.
Proof. reflexivity. Qed.

Lemma close_idempotent (h : nat) (st : Store) :
  close h (close h st) = close h st.
Proof.
  unfold close. simpl. f_equal.
  apply map_eq. intros i. destruct (decide (i = h)) as [->|Hne].
  - rewrite !lookup_alter_eq. by destruct (sources st !! h).
  - by rewrite !lookup_alter_ne.
Qed.

Lemma close_many (n : nat) (h : nat) (st : Store) :
  Nat.iter n (close h) (close h st) = close h st.
Proof.
  induction n as [|n IH]; simpl; [reflexivity|].
  rewrite IH. apply close_idempotent.
Qed.

Lemma live_source_closed (h : nat) (st : Store) :
  live_source (close h st) h = Failure closed_source.
Proof.
  unfold live_source, close. simpl. rewrite lookup_alter_eq.
  by destruct (sources st !! h).
Qed.

Lemma live_layer_closed (h i : nat) (st : Store) :
  live_layer (close h st) {| layer_source := h; layer_index := i |}
  = Failure closed_source.
Proof. unfold live_layer. simpl. by rewrite live_source_closed. Qed.

(** C5. Closing is idempotent: closing again, any number of times,
    changes nothing (and closing cannot fail). Once a source is
    closed, every operation on it, on a Layer of it or on a Cursor
    over a Layer of it fails with [UnsupportedOperation]. *)
Theorem closed_source_safety (h : nat) (st : Store) :
  let closed := close h st in
  (forall n, Nat.iter n (close h) closed = closed)
  /\ err_kind closed_source = UnsupportedOperation
  /\ list_layers h closed = Failure closed_source
  /\ (forall which, layer h which closed = Failure closed_source)
  /\ (forall name gt fields crs,
        create_layer h name gt fields crs closed = Failure closed_source)
  /\ (forall i,
        let l := {| layer_source := h; layer_index := i |} in
        schema l closed = Failure closed_source
        /\ (forall bbox attr transform,
              cursor l bbox attr transform closed = Failure closed_source)
        /\ (forall f, insert l f closed = Failure closed_source)
        /\ (forall f, update l f closed = Failure closed_source)
        /\ (forall id, delete l id closed = Failure closed_source)
        /\ (forall pos bbox attr transform,
              let c := {| cursor_layer := l; cursor_pos := pos;
                          cursor_bbox := bbox; cursor_attr := attr;
                          cursor_transform := transform |} in
              next c closed = Failed closed_source c closed)).
Proof.
  simpl. split_and!.
  - intros n. apply close_many.
  - reflexivity.
  - unfold list_layers. by rewrite live_source_closed.
  - intros which. unfold layer. by rewrite live_source_closed.
  - intros name gt fields crs. unfold create_layer. by rewrite live_source_closed.
  - intros i. split_and!.
    + unfold schema. by rewrite live_layer_closed.
    + intros bbox attr transform. unfold cursor. by rewrite live_layer_closed.
    + intros f. unfold insert. by rewrite live_layer_closed.
    + intros f. unfold update. by rewrite live_layer_closed.
    + intros id. unfold delete. by rewrite live_layer_closed.
    + intros pos bbox attr transform. unfold next. simpl.
      by rewrite live_layer_closed.
Qed.

(** ** Iterating a cursor *)







(** ** The geometry codec *)

Local Open Scope Z_scope.









Section Sequences.

Context {A : Type}.
Variables (item : Parser A) (enc : A -> list Z).



End Sequences.

(** *** Dimensions *)






(** *** The variants, one by one *)








(** *** Induction through nested collections *)










Example mixed_line_is_not_uniform :
  uniform_dims mixed_line = false
  /\ decode (encode mixed_line) <> Success mixed_line.
Proof. split; [reflexivity|]. vm_compute. discriminate. Qed.

(** ** A small data source *)



(** The failed call has moved the cursor on: the call after it yields
    the second feature, and the one after that signals the end. *)
Example broken_layer_yields_one_of_two :
  match next plain_cursor broken_store with
  | Failed e c1 st1 =>
      err_kind e = GeometryConversionError
      /\ match next c1 st1 with
         | Yield f c2 st2 =>
             f = feature_b
             /\ next c2 st2 = EndOfSequence c2 st2
             /\ pulls st2 = 2%nat
         | _ => False
         end
  | _ => False
  end.
Proof. vm_compute. split_and!; reflexivity. Qed.

Example next_after_close :
  exists e c st,
    next places_cursor (close 0 sample_store) = Failed e c st
    /\ err_kind e = UnsupportedOperation.
Proof. vm_compute. eexists _, _, _. split; reflexivity. Qed.

Example insert_into_read_only :
  exists e,
    insert places_layer feature_a sample_store = Failure e
    /\ err_kind e = UnsupportedOperation.
Proof. vm_compute. eexists. split; reflexivity. Qed.

